(** * WebAccessTool: search aggregation and content extraction

    A shallow embedding of [webaccess/search_engine.py] and
    [webaccess/search_&_extract.py], with the properties of the
    specification stated and settled over it.

    Python values are modelled as follows.
    - [str] is a sequence of Unicode code points: [pystr := list N].
    - [int] is [Z]; slices follow Python's rules for negative bounds.
    - [set] is stdpp's [gset]; an insertion-ordered [dict] is an
      association list.
    - a raised exception is the left summand of a result, [exn + A].
    - the fetch, parse and convert collaborators, the random source and
      the thread scheduler are the fields of the class [Collab]. *)

From Stdlib Require Import ZArith NArith Ascii String DecimalString Sorted.
From Stdlib.Strings Require Import Byte.
From stdpp Require Import base decidable option list gmap sets strings.

Set Warnings "-register-all".

Local Open Scope N_scope.

(** ** Python strings *)

Module PyStr.

(** A Python [str]: the sequence of its code points. *)
Definition pystr := list N.

(** The code points of an ASCII literal. *)
Definition py (s : string) : pystr :=
  (fun a => N_of_ascii a) <$> list_ascii_of_string s.

(** Truth value of a string: non-empty. *)
Definition truthy (s : pystr) : bool :=
  match s with [] => false | _ :: _ => true end.

(** [s.startswith(pre)] *)
Fixpoint startswith (pre s : pystr) : bool :=
  match pre, s with
  | [], _ => true
  | _ :: _, [] => false
  | a :: pre', b :: s' => if decide (a = b) then startswith pre' s' else false
  end.

(** [sub in s] *)
Fixpoint contains (sub s : pystr) : bool :=
  startswith sub s ||
  match s with
  | [] => false
  | _ :: s' => contains sub s'
  end.

(** [s.split(sep, 1)] for a non-empty [sep]: the whole string when [sep]
    does not occur, else the parts before and after its first occurrence. *)
Fixpoint split1 (sep s : pystr) : list pystr :=
  if startswith sep s then [[]; drop (length sep) s]
  else match s with
       | [] => [[]]
       | c :: s' =>
           match split1 sep s' with
           | h :: t => (c :: h) :: t
           | [] => [[c]]
           end
       end.

(** [parts[i]] on the result of a split; the guards of the callers keep
    [i] in range, the empty string stands for the [IndexError] case. *)
Definition item (parts : list pystr) (i : nat) : pystr :=
  default [] (parts !! i).

(** [s.replace(old, new)] for one-character [old] and [new]. *)
Definition replace_char (old new : N) (s : pystr) : pystr :=
  (fun c => if decide (c = old) then new else c) <$> s.

(** [s.split(c)] on every occurrence of the character [c]. *)
Fixpoint split_all (c : N) (s : pystr) : list pystr :=
  match s with
  | [] => [[]]
  | d :: s' =>
      if decide (d = c) then [] :: split_all c s'
      else match split_all c s' with
           | h :: t => (d :: h) :: t
           | [] => [[d]]
           end
  end.

(** [str(n)] for an [int]. *)
Definition str_of_Z (n : Z) : pystr :=
  py (NilZero.string_of_int (Z.to_int n)).

End PyStr.
Export PyStr.

(** ** [urllib.parse.unquote] *)

Module Unquote.

Definition percent : N := 37.
Definition replacement_char : N := 65533.

Definition is_ascii (c : N) : bool := c <? 128.

(** Value of a hexadecimal digit, either case. *)
Definition hexval (c : N) : option N :=
  if (48 <=? c) && (c <=? 57) then Some (c - 48)
  else if (65 <=? c) && (c <=? 70) then Some (c - 55)
  else if (97 <=? c) && (c <=? 102) then Some (c - 87)
  else None.

(** One item after a [%]: the byte of its two leading hex digits followed
    by the rest, or the item with its [%] restored. *)
Definition unquote_item (item : list N) : list N :=
  match item with
  | a :: b :: rest =>
      match hexval a, hexval b with
      | Some x, Some y => (16 * x + y) :: rest
      | _, _ => percent :: item
      end
  | _ => percent :: item
  end.

(** [unquote_to_bytes] on an ASCII string (its UTF-8 encoding is itself). *)
Definition unquote_to_bytes (s : pystr) : list N :=
  match split_all percent s with
  | [] => []
  | first :: items => first ++ concat (unquote_item <$> items)
  end.

Definition is_cont (b : N) : bool := (128 <=? b) && (b <=? 191).

(** [bytes.decode('utf-8', 'replace')]: every maximal ill-formed part is
    replaced by U+FFFD. *)
Fixpoint decode_utf8 (bs : list N) : pystr :=
  match bs with
  | [] => []
  | b0 :: r0 =>
      if b0 <? 128 then b0 :: decode_utf8 r0
      else if b0 <? 194 then replacement_char :: decode_utf8 r0
      else if b0 <? 224 then
        match r0 with
        | [] => [replacement_char]
        | b1 :: r1 =>
            if is_cont b1
            then (N.land b0 31 * 64 + N.land b1 63) :: decode_utf8 r1
            else replacement_char :: decode_utf8 r0
        end
      else if b0 <? 240 then
        match r0 with
        | [] => [replacement_char]
        | b1 :: r1 =>
            if negb (is_cont b1)
               || (if b1 <? 160 then b0 =? 224 else b0 =? 237)
            then replacement_char :: decode_utf8 r0
            else
              match r1 with
              | [] => [replacement_char]
              | b2 :: r2 =>
                  if is_cont b2
                  then (N.land b0 15 * 4096 + N.land b1 63 * 64
                        + N.land b2 63) :: decode_utf8 r2
                  else replacement_char :: decode_utf8 r1
              end
        end
      else if b0 <? 245 then
        match r0 with
        | [] => [replacement_char]
        | b1 :: r1 =>
            if negb (is_cont b1)
               || (if b1 <? 144 then b0 =? 240 else b0 =? 244)
            then replacement_char :: decode_utf8 r0
            else
              match r1 with
              | [] => [replacement_char]
              | b2 :: r2 =>
                  if negb (is_cont b2)
                  then replacement_char :: decode_utf8 r1
                  else
                    match r2 with
                    | [] => [replacement_char]
                    | b3 :: r3 =>
                        if is_cont b3
                        then (N.land b0 7 * 262144 + N.land b1 63 * 4096
                              + N.land b2 63 * 64 + N.land b3 63)
                             :: decode_utf8 r3
                        else replacement_char :: decode_utf8 r2
                    end
              end
        end
      else replacement_char :: decode_utf8 r0
  end.

(** Maximal runs of ASCII and of non-ASCII characters, in order. *)
Definition runs_cons (c : N) (rs : list (bool * pystr)) : list (bool * pystr) :=
  match rs with
  | (b, r) :: rs' =>
      if Bool.eqb b (is_ascii c) then (b, c :: r) :: rs'
      else (is_ascii c, [c]) :: rs
  | [] => [(is_ascii c, [c])]
  end.

Definition ascii_runs (s : pystr) : list (bool * pystr) :=
  foldr runs_cons [] s.

(** [unquote(string)] with the default [encoding='utf-8'] and
    [errors='replace']: the ASCII runs are percent-decoded and decoded as
    UTF-8, the other characters are kept. *)
Definition unquote (s : pystr) : pystr :=
  if bool_decide (percent ∈ s) then
    concat ((fun br : bool * pystr =>
               if br.1 then decode_utf8 (unquote_to_bytes br.2) else br.2)
            <$> ascii_runs s)
  else s.

End Unquote.
Export Unquote.

(** ** URL normalisation ([search_engine.py], [_normalize_url]) *)

Definition _normalize_url (url : pystr) : pystr :=
  (* for duckduckgo *)
  let url :=
    if contains (py "uddg=http") url then
      let url := item (split1 (py "uddg=") url) 1 in
      if contains (py "&rut=") url
      then item (split1 (py "&rut=") url) 0
      else url
    else url in
  (* for yahoo *)
  let url :=
    if contains (py "/RU=http") url then
      let url := item (split1 (py "/RU=") url) 1 in
      if contains (py "/RK=2/RS") url
      then item (split1 (py "/RK=2/RS=") url) 0
      else url
    else url in
  if truthy url then unquote (replace_char 32 43 url) else [].

(** ** Parsed result pages (lxml) *)

(** An element of the parsed tree: tag, attributes and child elements, in
    document order. The configured parser removes comments and processing
    instructions, so only elements remain. *)
Inductive element : Type :=
  Element (tag : pystr) (attrib : list (pystr * pystr)) (children : list element).

Definition tag (e : element) : pystr :=
  match e with Element t _ _ => t end.
Definition attrib (e : element) : list (pystr * pystr) :=
  match e with Element _ a _ => a end.
Definition children (e : element) : list element :=
  match e with Element _ _ c => c end.

(** [e.attrib.get(name)] *)
Fixpoint attrib_get (name : pystr) (a : list (pystr * pystr)) : option pystr :=
  match a with
  | [] => None
  | (k, v) :: a' => if decide (k = name) then Some v else attrib_get name a'
  end.

(** Truth value of a list: non-empty. *)
Definition truthy_list {A} (l : list A) : bool :=
  match l with [] => false | _ :: _ => true end.

Module XPath.

(** The element and its descendants, in document order. *)
Fixpoint descendant_or_self (e : element) : list element :=
  match e with
  | Element _ _ cs =>
      e :: (fix go (l : list element) : list element :=
              match l with
              | [] => []
              | c :: l' => descendant_or_self c ++ go l'
              end) cs
  end.

Definition has_tag (t : pystr) (e : element) : bool :=
  bool_decide (tag e = t).

(** [./t] *)
Definition child (t : pystr) (e : element) : list element :=
  List.filter (has_tag t) (children e).

(** [@name] over a node list *)
Definition attr (name : pystr) (es : list element) : list pystr :=
  omap (fun e => attrib_get name (attrib e)) es.

(** [tree.xpath("//div")] *)
Definition all_div (tree : element) : list element :=
  List.filter (has_tag (py "div")) (descendant_or_self tree).

(** [tree.xpath("//h2")] *)
Definition all_h2 (tree : element) : list element :=
  List.filter (has_tag (py "h2")) (descendant_or_self tree).

(** [tree.xpath("//div[h2]")] *)
Definition all_div_with_h2 (tree : element) : list element :=
  List.filter (fun e => has_tag (py "div") e && truthy_list (child (py "h2") e))
    (descendant_or_self tree).

(** [e.xpath("./a/@href")] *)
Definition a_href (e : element) : list pystr :=
  attr (py "href") (child (py "a") e).

(** [e.xpath("./span/a/@href")] *)
Definition span_a_href (e : element) : list pystr :=
  attr (py "href") (child (py "span") e ≫= child (py "a")).

End XPath.

(** ** Provider parsers: the loop of each [_search_*] over the selected
    elements. An XPath node-set result is always a list of elements, so
    the two [isinstance] tests of the source hold and are not modelled. *)

(** [str(hrefxpath[0]) if hrefxpath and isinstance(hrefxpath, list) else None] *)
Definition first_href (hrefxpath : list pystr) : option pystr :=
  match hrefxpath with
  | h :: _ => Some h
  | [] => None
  end.

(** [_normalize_url(href) if href else None] *)
Definition normalized (href : option pystr) : option pystr :=
  match href with
  | Some h => if truthy h then Some (_normalize_url h) else None
  | None => None
  end.

(** The loop state: [cache] and [page_results]. *)
Definition parse_state : Type := gset pystr * list pystr.

Definition parse_init : parse_state := (∅, []).

(** [cache.add(href); page_results.append(href)] *)
Definition keep (href : pystr) (st : parse_state) : parse_state :=
  ({[href]} ∪ st.1, st.2 ++ [href]).

Definition google_step (st : parse_state) (e : element) : parse_state :=
  let hrefxpath := XPath.span_a_href e in
  let href := first_href hrefxpath in
  let href := normalized href in
  match href with
  | Some href =>
      if truthy href && negb (bool_decide (href ∈ st.1))
         && startswith (py "http") href
      then keep href st else st
  | None => st
  end.

Definition google_results (tree : element) : list pystr :=
  (foldl google_step parse_init (XPath.all_div tree)).2.

Definition bing_step (st : parse_state) (e : element) : parse_state :=
  let hrefxpath := XPath.a_href e in
  let href := first_href hrefxpath in
  let href := normalized href in
  match href with
  | Some href =>
      if truthy href && startswith (py "http") href
         && negb (bool_decide (href ∈ st.1))
      then keep href st else st
  | None => st
  end.

Definition bing_results (tree : element) : list pystr :=
  (foldl bing_step parse_init (XPath.all_h2 tree)).2.

Definition yahoo_step (st : parse_state) (e : element) : parse_state :=
  let hrefxpath := XPath.a_href e in
  let href := first_href hrefxpath in
  let href := normalized href in
  match href with
  | Some href =>
      if truthy href
         && bool_decide (attrib_get (py "class") (attrib e) = Some (py "d-ib v-v"))
         && negb (bool_decide (href ∈ st.1))
      then keep href st else st
  | None => st
  end.

Definition yahoo_results (tree : element) : list pystr :=
  (foldl yahoo_step parse_init (XPath.all_div tree)).2.

Definition duckduckgo_step (st : parse_state) (e : element) : parse_state :=
  let hrefxpath := XPath.a_href e in
  let href := first_href hrefxpath in
  let href := normalized href in
  match href with
  | Some href =>
      if truthy href && negb (bool_decide (href ∈ st.1))
      then keep href st else st
  | None => st
  end.

Definition duckduckgo_results (tree : element) : list pystr :=
  (foldl duckduckgo_step parse_init (XPath.all_div_with_h2 tree)).2.

(** ** Python lists *)

(** [l[:k]]: the first [k] items, or all but the last [-k] for negative [k]. *)
Definition slice_to {A} (k : Z) (l : list A) : list A :=
  if (0 <=? k)%Z then take (Z.to_nat k) l
  else take (Z.to_nat (Z.of_nat (length l) + k)) l.

(** An insertion-ordered [dict]. *)
Definition dict (V : Type) : Type := list (pystr * V).

(** [d[k] = v]: a present key keeps its position, a new key goes last. *)
Fixpoint dict_set {V} (k : pystr) (v : V) (d : dict V) : dict V :=
  match d with
  | [] => [(k, v)]
  | (k', v') :: d' =>
      if decide (k' = k) then (k', v) :: d' else (k', v') :: dict_set k v d'
  end.

(** [dict.fromkeys(keys)] *)
Definition dict_fromkeys (keys : list pystr) : dict unit :=
  foldl (fun d k => dict_set k () d) [] keys.

(** [list(d)] *)
Definition dict_keys {V} (d : dict V) : list pystr := d.*1.

(** ** Exceptions, records and the world *)

Inductive exn : Type :=
| ValueError (msg : pystr)
| TypeError (msg : pystr)
| CollabError (msg : pystr).

(** [str(e)] *)
Definition exn_str (e : exn) : pystr :=
  match e with
  | ValueError m | TypeError m | CollabError m => m
  end.

Definition bytes : Type := list Byte.byte.

(** The dictionary built by [_search_with_error_handling]. *)
Record SearchRecord : Type := mkSearchRecord {
  query : pystr;
  urls : list pystr;
  error : option pystr
}.

(** An item of the list returned by [bulk_search]: a URL when [combined],
    else a record; [fetch_site_from_url_bulk] receives such a list. *)
Inductive pyval : Type :=
| VStr (s : pystr)
| VDict (r : SearchRecord).

(** The single-entry dictionary [{url: content}]. *)
Record ExtractionRecord : Type := mkExtractionRecord {
  url : pyval;
  content : pystr
}.

(** A line written by [print]: which message, with which arguments. *)
Inductive log_line : Type :=
| SearchErrorLine (q : pystr) (e : exn)
| FetchErrorLine (u : pyval) (e : exn).

(** The collaborators of the pipeline, which the specification places
    outside the core: the scraper of [scraper.py] ([fetch.get], and the
    [markdown] and [plain_text] of its response, which that file converts
    through a temporary file it removes again), lxml's
    [document_fromstring], the generator behind [random.sample] and the
    scheduler of the thread pools. [Env] is whatever state they own; a
    conversion is a function of the response body. *)
Class Collab : Type := {
  Env : Type;
  http_get : pystr -> Env -> (exn + bytes) * Env;
  document_fromstring : bytes -> exn + element;
  convert_to_markdown : bytes -> exn + pystr;
  convert_to_plain_text : bytes -> exn + pystr;
  randbelow : nat -> Env -> nat * Env;
  sched_pick : nat -> Env -> nat * Env
}.

Section Engine.
Context `{Collab}.

(** The state a run can touch: the collaborators' own state, the files
    of the working directory, the lines printed, and the URLs requested
    from [fetch.get] so far. *)
Record World : Type := mkWorld {
  env : Env;
  files : gmap pystr bytes;
  stdout : list log_line;
  requests : list pystr
}.

Definition set_env (e : Env) (w : World) : World :=
  mkWorld e (files w) (stdout w) (requests w).

(** Computations: the world in, a result or an exception and the world out. *)
Definition M (A : Type) : Type := World -> (exn + A) * World.

Definition ret {A} (a : A) : M A := fun w => (inr a, w).
Definition raise {A} (e : exn) : M A := fun w => (inl e, w).
Definition bind {A B} (m : M A) (k : A -> M B) : M B :=
  fun w =>
    match m w with
    | (inr a, w') => k a w'
    | (inl e, w') => (inl e, w')
    end.

(** [try: m  except Exception as e: h e] *)
Definition try_except {A} (m : M A) (h : exn -> M A) : M A :=
  fun w =>
    match m w with
    | (inl e, w') => h e w'
    | (inr a, w') => (inr a, w')
    end.

Definition lift_result {A} (r : exn + A) : M A := fun w => (r, w).

Definition lift_env {A} (f : Env -> A * Env) : M A :=
  fun w => let '(a, e) := f (env w) in (inr a, set_env e w).

(** [print(...)] *)
Definition print (l : log_line) : M unit :=
  fun w => (inr (), mkWorld (env w) (files w) (stdout w ++ [l]) (requests w)).

(** [with open(name, 'wb') as f: f.write(data)] *)
Definition write_file (name : pystr) (data : bytes) : M unit :=
  fun w =>
    (inr (), mkWorld (env w) (<[name := data]> (files w)) (stdout w) (requests w)).

(** [self.fetch.get(url).content] for a string [url]. The request is a
    step of the environment and is recorded; [files] holds what the code
    of the repository writes, so whatever the libraries behind
    [fetch.get] keep on disk (the suffix list of tldextract) is no part
    of it. *)
Definition fetch_get (url : pystr) : M bytes :=
  fun w =>
    let '(r, e) := http_get url (env w) in
    (r, mkWorld e (files w) (stdout w) (requests w ++ [url])).

End Engine.

Notation "'let*' x ':=' m 'in' k" := (bind m (fun x => k))
  (at level 10, x name, m at level 100, k at level 200).

(** ** Thread pools ([concurrent.futures])

    A submitted task runs as one step. The scheduler picks, among the
    pending tasks that a worker can have taken (the first [max_workers] in
    submission order), the one that completes next; every completion
    order of the pool is some scheduler. *)

Section Pool.
Context `{Collab}.

(** [ThreadPoolExecutor(max_workers=n)]: the number of workers. *)
Definition ThreadPoolExecutor (max_workers : Z) : M nat :=
  if (max_workers <=? 0)%Z
  then raise (ValueError (py "max_workers must be greater than 0"))
  else ret (Z.to_nat max_workers).

(** [executor.submit] for each task: the futures, numbered in submission
    order. *)
Definition submit_all {A} (tasks : list (M A)) : list (nat * M A) :=
  imap (fun i t => (i, t)) tasks.

(** Runs [n] of the pending tasks; the finished futures (submission index,
    result or exception) in completion order. *)
Fixpoint run_pool {A} (n max_workers : nat) (pending : list (nat * M A))
    (w : World) : list (nat * (exn + A)) * World :=
  match n with
  | O => ([], w)
  | S n' =>
      let running := Nat.min max_workers (length pending) in
      let '(j, e) := sched_pick running (env w) in
      let j := (j mod running)%nat in
      match pending !! j with
      | None => ([], w)
      | Some (i, task) =>
          let '(r, w1) := task (set_env e w) in
          let '(finished, w2) := run_pool n' max_workers (delete j pending) w1 in
          ((i, r) :: finished, w2)
      end
  end.

Definition run_all {A} (max_workers : nat) (tasks : list (M A))
    (w : World) : list (nat * (exn + A)) * World :=
  run_pool (length tasks) max_workers (submit_all tasks) w.

(** [as_completed(futures)] once the pool has run: the futures in
    completion order. *)
Definition as_completed {A} (max_workers : nat) (tasks : list (M A))
    : M (list (exn + A)) :=
  fun w => let '(finished, w') := run_all max_workers tasks w in
           (inr (finished.*2), w').

(** The future submitted at position [i]. *)
Fixpoint future_at {A} (i : nat) (finished : list (nat * (exn + A)))
    : option (exn + A) :=
  match finished with
  | [] => None
  | (k, r) :: finished' =>
      if decide (k = i) then Some r else future_at i finished'
  end.

(** [future.result()] for each future in turn: the results, or the first
    exception met. *)
Fixpoint results_of {A} (futures : list (exn + A)) : exn + list A :=
  match futures with
  | [] => inr []
  | inl e :: _ => inl e
  | inr a :: futures' =>
      match results_of futures' with
      | inl e => inl e
      | inr l => inr (a :: l)
      end
  end.

(** [list(executor.map(fn, xs))]: the results of the futures read in
    submission order. (That a raising result cancels the futures still
    queued is not modelled.) *)
Definition executor_map {A} (max_workers : nat) (tasks : list (M A))
    : M (list A) :=
  fun w => let '(finished, w') := run_all max_workers tasks w in
           (results_of (omap (fun i => future_at i finished)
                             (seq 0 (length tasks))), w').

(** [random.sample(population, k)] for a population of at most 21 items:
    selection from a pool, a non-selected item moving into each vacancy. *)
Fixpoint sample_pool {A} (k n : nat) (pool : list A) (e : Env) : list A * Env :=
  match k with
  | O => ([], e)
  | S k' =>
      let '(j, e1) := randbelow n e in
      let j := (j mod n)%nat in
      match pool !! j, pool !! (n - 1)%nat with
      | Some x, Some last =>
          let '(rest, e2) := sample_pool k' (n - 1)%nat (<[j := last]> pool) e1 in
          (x :: rest, e2)
      | _, _ => ([], e1)
      end
  end.

Definition random_sample {A} (population : list A) (k : nat) : M (list A) :=
  if decide (k <= length population)%nat
  then lift_env (sample_pool k (length population) population)
  else raise (ValueError (py "Sample larger than population or is negative")).

End Pool.

(** ** The search engine ([search_engine.py], class [SearchEngine]) *)

Section SearchEngine.
Context `{Collab}.

Definition _search_google (query : pystr) (num_results : Z) : M (list pystr) :=
  let* search_results :=
    fetch_get (py "https://www.google.com/search?udm=14&q=" ++ query
               ++ py "&num=" ++ str_of_Z num_results) in
  let* tree := lift_result (document_fromstring search_results) in
  ret (google_results tree).

Definition _search_bing (query : pystr) (num_results : Z) : M (list pystr) :=
  let* search_results :=
    fetch_get (py "https://www.bing.com/search?q=" ++ query
               ++ py "&count=" ++ str_of_Z num_results) in
  let* _ := write_file (py "bing.html") search_results in
  let* tree := lift_result (document_fromstring search_results) in
  ret (bing_results tree).

Definition _search_yahoo (query : pystr) (num_results : Z) : M (list pystr) :=
  let* search_results :=
    fetch_get (py "https://search.yahoo.com/search?q=" ++ query
               ++ py "&n=" ++ str_of_Z num_results) in
  let* tree := lift_result (document_fromstring search_results) in
  ret (yahoo_results tree).

Definition _search_duckduckgo (query : pystr) (num_results : Z) : M (list pystr) :=
  let* html :=
    fetch_get (py "https://www.duckduckgo.com/html/?q=" ++ query
               ++ py "&num=" ++ str_of_Z num_results) in
  let* tree := lift_result (document_fromstring html) in
  ret (duckduckgo_results tree).

Definition engines : list pystr :=
  [py "google"; py "bing"; py "yahoo"; py "duckduckgo"].

(** [results.extend(future.result())] under [try], [continue] on an
    exception. *)
Definition extend_result (results : list pystr) (future : exn + list pystr)
    : list pystr :=
  match future with
  | inr r => results ++ r
  | inl _ => results
  end.

(** The body of [search]; [sub_search] is the [search] of the engine
    objects that the auto branch creates. *)
Definition search_body (sub_search : pystr -> pystr -> Z -> M (list pystr))
    (provider query : pystr) (num_results : Z) : M (list pystr) :=
  if decide (provider = py "google") then
    let* r := _search_google query num_results in ret (slice_to num_results r)
  else if decide (provider = py "bing") then
    let* r := _search_bing query num_results in ret (slice_to num_results r)
  else if decide (provider = py "yahoo") then
    let* r := _search_yahoo query num_results in ret (slice_to num_results r)
  else if decide (provider = py "duckduckgo") then
    let* r := _search_duckduckgo query num_results in ret (slice_to num_results r)
  else if decide (provider = py "auto") then
    let* chosen := random_sample engines 2 in
    let* executor := ThreadPoolExecutor 2 in
    let* futures :=
      as_completed executor
        ((fun eng => sub_search eng query num_results) <$> chosen) in
    let results := foldl extend_result [] futures in
    let deduped := dict_keys (dict_fromkeys results) in
    ret (slice_to num_results deduped)
  else ret [].

(** [search] of an engine created by the auto branch: its provider is one
    of [engines], so it creates no further engine. *)
Definition search_chosen : pystr -> pystr -> Z -> M (list pystr) :=
  search_body (fun _ _ _ => ret []).

(** [SearchEngine(provider).search(query, num_results)] *)
Definition search : pystr -> pystr -> Z -> M (list pystr) :=
  search_body search_chosen.

Definition _search_with_error_handling (provider query : pystr)
    (num_results_from_each : Z) : M SearchRecord :=
  try_except
    (let* result_urls := search provider query num_results_from_each in
     ret (mkSearchRecord query result_urls None))
    (fun e =>
       let* _ := print (SearchErrorLine query e) in
       ret (mkSearchRecord query [] (Some (exn_str e)))).

(** [urls.extend(url)] unless [url] is empty *)
Definition extend_urls (acc : list pystr) (json_obj : SearchRecord) : list pystr :=
  if truthy_list (urls json_obj) then acc ++ urls json_obj else acc.

Definition bulk_search (provider : pystr) (queries : list pystr)
    (num_results_from_each : Z) (combined : bool) : M (list pyval) :=
  let max_workers :=
    if truthy_list queries then Z.min 10 (Z.of_nat (length queries)) else 1%Z in
  let* executor := ThreadPoolExecutor max_workers in
  let* results :=
    executor_map executor
      ((fun q => _search_with_error_handling provider q num_results_from_each)
       <$> queries) in
  if combined then ret (VStr <$> foldl extend_urls [] results)
  else ret (VDict <$> results).

End SearchEngine.

(** ** Extraction and ranking ([search_&_extract.py], class
    [SearchWithExtractor]) *)

Module Regex.

(** Characters matched by [\s] in a [str] pattern. *)
Definition is_space (c : N) : bool :=
  ((9 <=? c) && (c <=? 13)) || ((28 <=? c) && (c <=? 32))
  || (c =? 133) || (c =? 160) || (c =? 5760)
  || ((8192 <=? c) && (c <=? 8202)) || (c =? 8232) || (c =? 8233)
  || (c =? 8239) || (c =? 8287) || (c =? 12288).

Definition is_newline (c : N) : bool := c =? 10.

(** [re.sub(p+, r, s)] for a one-character class [p]: every maximal run
    of matching characters becomes [r]. *)
Fixpoint sub_runs (p : N -> bool) (r : N) (in_run : bool) (s : pystr) : pystr :=
  match s with
  | [] => []
  | c :: s' =>
      if p c then
        if in_run then sub_runs p r true s' else r :: sub_runs p r true s'
      else c :: sub_runs p r false s'
  end.

End Regex.

(** [sorted(results, key=lambda item: len(content of item), reverse=True)]:
    a stable sort, longest content first. *)
Definition sort_key (item : ExtractionRecord) : nat := length (content item).

Fixpoint insert_desc (x : ExtractionRecord) (l : list ExtractionRecord)
    : list ExtractionRecord :=
  match l with
  | [] => [x]
  | y :: l' =>
      if (sort_key x <? sort_key y)%nat then y :: insert_desc x l'
      else x :: y :: l'
  end.

Definition sorted_desc (l : list ExtractionRecord) : list ExtractionRecord :=
  foldr insert_desc [] l.

(** The loop over [as_completed(futures)]: [future.result()] raises the
    exception of its task, a result that is not [None] is appended (a
    record is a non-empty dictionary, so it passes [if result]). *)
Fixpoint collect_results (futures : list (exn + option ExtractionRecord))
    : exn + list ExtractionRecord :=
  match futures with
  | [] => inr []
  | inl e :: _ => inl e
  | inr result :: futures' =>
      match collect_results futures' with
      | inl e => inl e
      | inr results =>
          inr (match result with
               | Some r => r :: results
               | None => results
               end)
      end
  end.

Section Extractor.
Context `{Collab}.

(** [self.fetch.get(url).content]. A record in place of a URL cannot be
    hashed by the memoised referer helper of the scraper. *)
Definition fetch_get_val (u : pyval) : M bytes :=
  match u with
  | VStr s => fetch_get s
  | VDict _ => raise (TypeError (py "unhashable type: 'dict'"))
  end.

(** [fetch.get] returns a response or raises, so the test
    [content_obj is None] of the source never holds and is not modelled.
    The result is [None] after an exception, else the record. *)
Definition fetch_site_from_url (u : pyval) (type : pystr) (max_text : option Z)
    : M (option ExtractionRecord) :=
  try_except
    (let* content_obj := fetch_get_val u in
     let* content :=
       lift_result (if decide (type = py "markdown")
                    then convert_to_markdown content_obj
                    else convert_to_plain_text content_obj) in
     let content :=
       if decide (type = py "clean")
       then Regex.sub_runs Regex.is_space 32 false
              (Regex.sub_runs Regex.is_newline 32 false content)
       else content in
     let content :=
       match max_text with
       | Some m => if (0 <? m)%Z then slice_to m content else content
       | None => content
       end in
     ret (Some (mkExtractionRecord u content)))
    (fun e =>
       let* _ := print (FetchErrorLine u e) in
       ret None).

(** The [with] block of [fetch_site_from_url_bulk]: the records
    collected, in completion order. *)
Definition collect_sites (us : list pyval) (type : pystr)
    (max_text : option Z) : M (list ExtractionRecord) :=
  let* executor := ThreadPoolExecutor (Z.of_nat (length us)) in
  let* futures :=
    as_completed executor
      ((fun u => fetch_site_from_url u type max_text) <$> us) in
  lift_result (collect_results futures).

Definition fetch_site_from_url_bulk (us : list pyval) (type : pystr)
    (max_text : option Z) : M (list ExtractionRecord) :=
  let* results := collect_sites us type max_text in
  ret (sorted_desc results).

Definition auto_search_and_extract (provider : pystr) (queries : list pystr)
    (num_results_from_each : Z) (combined : bool) : M (list ExtractionRecord) :=
  let* search_results :=
    bulk_search provider queries num_results_from_each combined in
  let* extract_results :=
    fetch_site_from_url_bulk search_results (py "clean") (Some 4096%Z) in
  let sorted_results := sorted_desc extract_results in
  ret sorted_results.

End Extractor.

(** ** Terms of the statements *)

(** The four concrete providers. *)
Inductive provider : Type := Google | Bing | Yahoo | DuckDuckGo.

(** The parser of a provider: the URLs its [_search_*] method returns for
    a parsed result page. *)
Definition parse (p : provider) (tree : element) : list pystr :=
  match p with
  | Google => google_results tree
  | Bing => bing_results tree
  | Yahoo => yahoo_results tree
  | DuckDuckGo => duckduckgo_results tree
  end.

(** The elements a provider's rule visits, in document order. *)
Definition selected (p : provider) (tree : element) : list element :=
  match p with
  | Google | Yahoo => XPath.all_div tree
  | Bing => XPath.all_h2 tree
  | DuckDuckGo => XPath.all_div_with_h2 tree
  end.

(** What one turn of a provider's loop takes from the element it visits,
    before the cache is asked: the loop's own [hrefxpath[0]], normalised,
    under the loop's own tests. *)
Definition anchor_of (p : provider) (e : element) : option pystr :=
  let hrefs :=
    match p with
    | Google => XPath.span_a_href e
    | _ => XPath.a_href e
    end in
  match normalized (first_href hrefs) with
  | Some u =>
      let pass :=
        match p with
        | Google | Bing => startswith (py "http") u
        | Yahoo =>
            bool_decide (attrib_get (py "class") (attrib e) = Some (py "d-ib v-v"))
        | DuckDuckGo => true
        end in
      if truthy u && pass then Some u else None
  | None => None
  end.

(** One turn of a parser loop on the anchor [cand] finds for the element:
    kept unless already in [cache]. *)
Definition visit (cand : element -> option pystr) (st : parse_state)
    (e : element) : parse_state :=
  match cand e with
  | Some u => if bool_decide (u ∈ st.1) then st else keep u st
  | None => st
  end.

(** What the turns of the loop take from a page, in document order. *)
Definition anchors (p : provider) (tree : element) : list pystr :=
  omap (anchor_of p) (selected p tree).

(** The distinct items of a list, in order of first appearance. *)
Fixpoint first_seen (l : list pystr) : list pystr :=
  match l with
  | [] => []
  | x :: l' => x :: filter (fun y => y <> x) (first_seen l')
  end.

(** How many items of [l] repeat an item of [earlier] or an earlier item
    of [l]. *)
Fixpoint dup_count (earlier l : list pystr) : nat :=
  match l with
  | [] => 0
  | x :: l' =>
      ((if bool_decide (x ∈ earlier) then 1 else 0) + dup_count (earlier ++ [x]) l')%nat
  end.

(** Records of one content length, in the order of the list. *)
Definition of_length (n : nat) (l : list ExtractionRecord) : list ExtractionRecord :=
  filter (fun r => sort_key r = n) l.

(** Longest content first. *)
Definition longer_first (a b : ExtractionRecord) : Prop :=
  (sort_key b <= sort_key a)%nat.

(** The outcome [r] is what the task [t] produced in some world. *)
Definition outcome_of `{Collab} {A} (t : M A) (r : exn + A) : Prop :=
  exists w1 w2, t w1 = (r, w2).

(** ** A scripted world, for concrete runs

    The environment is a script of numbers, consumed by the random source
    and the scheduler. The web has three result pages and three sites;
    DuckDuckGo and every other address are unreachable. *)

Module Demo.

Definition link (h : string) : element :=
  Element (py "a") [(py "href", py h)] [].

Definition google_page : element :=
  Element (py "html") [] [Element (py "body") [] [
    Element (py "div") [] [Element (py "span") [] [link "http://a.test/"]];
    Element (py "div") [] [Element (py "span") [] [link "http://b.test/"]];
    Element (py "div") [] [Element (py "span") [] [link "http://a.test/"]];
    Element (py "div") [] [Element (py "span") [] [link "http://c.test/"]]]].

Definition bing_page : element :=
  Element (py "html") [] [Element (py "body") [] [
    Element (py "h2") [] [link "http://b.test/"];
    Element (py "h2") [] [link "/images"]]].

Definition yahoo_page : element :=
  Element (py "html") [] [Element (py "body") [] [
    Element (py "div") [(py "class", py "d-ib v-v")] [link "ftp://files.test/"]]].

Definition duckduckgo_page : element :=
  Element (py "html") [] [Element (py "body") [] [
    Element (py "div") [] [Element (py "h2") [] []; link "/settings"]]].

Definition body (s : string) : bytes := list_byte_of_string s.

Definition text (content : bytes) : pystr := Byte.to_N <$> content.

Definition web (u : pystr) : exn + bytes :=
  if startswith (py "https://www.google.com/search?") u then inr (body "G")
  else if startswith (py "https://www.bing.com/search?") u then inr (body "B")
  else if startswith (py "https://search.yahoo.com/search?") u then inr (body "Y")
  else if decide (u = py "http://a.test/") then inr (body "aaaa")
  else if decide (u = py "http://b.test/") then inr (body "bb")
  else if decide (u = py "http://c.test/") then inr (body "cccc")
  else inl (CollabError (py "connection failed")).

Definition pages (content : bytes) : exn + element :=
  if decide (text content = py "G") then inr google_page
  else if decide (text content = py "B") then inr bing_page
  else if decide (text content = py "Y") then inr yahoo_page
  else if decide (text content = py "D") then inr duckduckgo_page
  else inl (CollabError (py "Document is empty")).

Definition next (script : list nat) : nat * list nat :=
  match script with
  | [] => (O, [])
  | x :: script' => (x, script')
  end.

#[export] Instance collab : Collab := {|
  Env := list nat;
  http_get u e := (web u, e);
  document_fromstring := pages;
  convert_to_markdown content := inr (text content);
  convert_to_plain_text content := inr (text content);
  randbelow _ := next;
  sched_pick _ := next
|}.

(** A fresh world: the given script, no file, nothing printed or
    requested. *)
Definition world (script : list nat) : World := mkWorld script ∅ [] [].

End Demo.


(** ** The scraper ([scraper.py])

    The libraries behind the scraper: browserforge's header generator,
    tldextract, the name chosen by [tempfile.NamedTemporaryFile],
    MarkItDown's conversion of a file's data and python-markdown's
    conversion with the plain output format. The file system is taken to
    accept every write. *)

Class ScraperLibs `{Collab} : Type := {
  generate_headers : Env -> dict pystr * Env;
  tld_domain : pystr -> pystr;
  temp_name : Env -> pystr * Env;
  convert_local : bytes -> exn + pystr;
  markdown_convert : pystr -> exn + pystr
}.

(** [d.get(k)] *)
Fixpoint dict_get {V} (k : pystr) (d : dict V) : option V :=
  match d with
  | [] => None
  | (k', v) :: d' => if decide (k' = k) then Some v else dict_get k d'
  end.

(** [d.update(other)] *)
Definition dict_update {V} (d other : dict V) : dict V :=
  foldl (fun d kv => dict_set kv.1 kv.2 d) d other.

Module Scraper.
Section Scraper.
Context `{ScraperLibs}.

(** A header value: a string, or [None]. *)
Definition header : Type := option pystr.

Definition generate_convincing_referer (url : pystr) : pystr :=
  let website_name := tld_domain url in
  py "https://www.google.com/search?q=" ++ website_name.

Definition headers_job (headers : option (dict header)) (url : pystr)
    : M (dict header) :=
  let headers := default [] headers in
  let* generated := lift_env generate_headers in
  let headers := dict_set (py "User-Agent") (dict_get (py "User-Agent") generated)
                   headers in
  let* extra_headers := lift_env generate_headers in
  let headers := dict_update headers (prod_map id Some <$> extra_headers) in
  let headers :=
    dict_update headers
      [(py "referer", Some (generate_convincing_referer url))] in
  ret headers.

(** [os.remove(path)] under [if path and os.path.exists(path)] *)
Definition remove_if_exists (path : pystr) (fs : gmap pystr bytes)
    : gmap pystr bytes :=
  if truthy path && bool_decide (is_Some (fs !! path)) then delete path fs
  else fs.

(** The temporary file is written, converted from what it holds, and
    removed in the [finally] clause whether the conversion returned or
    raised. *)
Definition convert_to_markdown (content : bytes) : M pystr :=
  fun w =>
    let '(temp_path, e) := temp_name (env w) in
    let fs := <[temp_path := content]> (files w) in
    let markdown_result :=
      match fs !! temp_path with
      | Some data => convert_local data
      | None => inl (CollabError (py "No such file or directory"))
      end in
    (markdown_result,
     mkWorld e (remove_if_exists temp_path fs) (stdout w) (requests w)).

Definition convert_to_plain_text (content : bytes) : M pystr :=
  let* md_content := convert_to_markdown content in
  let* final_text := lift_result (markdown_convert md_content) in
  let final_text := Regex.sub_runs Regex.is_newline 10 false final_text in
  ret final_text.

End Scraper.
End Scraper.

(** ** Further terms of the statements *)

(** [s.find(sub)]: where [sub] first occurs in [s]. *)
Fixpoint str_find (sub s : pystr) : option nat :=
  if startswith sub s then Some O
  else match s with
       | [] => None
       | _ :: s' => S <$> str_find sub s'
       end.


(** The scripted world's libraries: one fixed header set, the host as
    domain, temporary names numbered by the script, conversions that
    return the text of the data and fail on empty data. *)
Module DemoLibs.

Definition text_or_fail (content : bytes) : exn + pystr :=
  match content with
  | [] => inl (CollabError (py "empty document"))
  | _ => inr (Demo.text content)
  end.

Definition fixed_headers (e : @Env Demo.collab) : dict pystr * @Env Demo.collab :=
  ([(py "User-Agent", py "Mozilla/5.0"); (py "Accept", py "*/*")], e).

Definition host (u : pystr) : pystr :=
  item (split1 (py "/") (item (split1 (py "://") u) 1)) 0.

Definition numbered_name (e : list nat) : pystr * list nat :=
  (py "/tmp/tmp" ++ str_of_Z (Z.of_nat (length e)), e).

#[export] Instance libs : @ScraperLibs Demo.collab :=
  @Build_ScraperLibs Demo.collab fixed_headers host numbered_name
    text_or_fail (fun md => inr md).

End DemoLibs.

(** A world where the page at an address holds the address itself, and
    converts to it. *)
Module Echo.

Definition page (u : pystr) : bytes := omap Byte.of_N u.

#[export] Instance collab : Collab := {|
  Env := list nat;
  http_get u e := (inr (page u), e);
  document_fromstring _ := inl (CollabError (py "Document is empty"));
  convert_to_markdown content := inr (Demo.text content);
  convert_to_plain_text content := inr (Demo.text content);
  randbelow _ := Demo.next;
  sched_pick _ := Demo.next
|}.

Definition world : @World collab := mkWorld [] ∅ [] [].

End Echo.

(** ** Anchors under a provider's structural rule

    The rule of a provider names containers and the anchors below them:
    Google [//div] with [./span/a], Bing [//h2] with [./a], Yahoo the
    [//div] of class ["d-ib v-v"] with [./a], DuckDuckGo [//div[h2]] with
    [./a]. These definitions read the page with the XPath functions only,
    not with the steps of the parser loops. *)

(** The [href]s of the anchors that the rule finds below a visited
    element, in document order. *)
Definition rule_hrefs (p : provider) (e : element) : list pystr :=
  match p with
  | Google => XPath.span_a_href e
  | Bing | Yahoo | DuckDuckGo => XPath.a_href e
  end.

(** Whether a visited element is a container of the rule. *)
Definition container (p : provider) (e : element) : bool :=
  match p with
  | Yahoo => bool_decide (attrib_get (py "class") (attrib e) = Some (py "d-ib v-v"))
  | Google | Bing | DuckDuckGo => true
  end.

Definition nonempty (s : pystr) : Prop := s <> [].

Definition is_http (u : pystr) : Prop := startswith (py "http") u = true.

(** The normalised URLs of a list of [href]s: an empty [href] names
    nothing, nor does one whose normalised URL is empty. *)
Definition urls_of (hrefs : list pystr) : list pystr :=
  filter nonempty (_normalize_url <$> filter nonempty hrefs).

(** The URLs of the anchors under the rule, in document order, where
    [pick] says which anchors of a container count. *)
Definition anchor_urls (pick : list pystr -> list pystr) (p : provider)
    (tree : element) : list pystr :=
  selected p tree ≫= fun e =>
    if container p e then urls_of (pick (rule_hrefs p e)) else [].

(** The anchors matching the rule: every anchor below a container whose
    normalised URL starts with [http]. *)
Definition rule_anchors (p : provider) (tree : element) : list pystr :=
  filter is_http (anchor_urls id p tree).

(** The same, counting of each container only its first anchor. *)
Definition first_urls (p : provider) (tree : element) : list pystr :=
  anchor_urls (take 1) p tree.

Definition first_anchors (p : provider) (tree : element) : list pystr :=
  filter is_http (first_urls p tree).

(** Result pages with more than one anchor in a container. *)
Module Pages.


(** A DuckDuckGo page: a redirect link to [a.test] followed by a second
    anchor, a link to [b.test], and a direct link to [a.test]. *)
Definition duckduckgo_links : element :=
  Element (py "html") [] [Element (py "body") [] [
    Element (py "div") [] [
      Element (py "h2") [] [];
      Demo.link "//duckduckgo.com/l/?uddg=http%3A%2F%2Fa.test%2F&rut=0123";
      Demo.link "http://ads.test/"];
    Element (py "div") [] [Element (py "h2") [] []; Demo.link "http://b.test/"];
    Element (py "div") [] [Element (py "h2") [] []; Demo.link "http://a.test/"]]].

End Pages.

(** * Properties *)

(** ** URL normalisation *)

Section Normalisation.

Lemma replace_char_absent (old new : N) (s : pystr) :
  old ∉ s -> replace_char old new s = s.
Proof.
  unfold replace_char.
  induction s as [|c s IH]; intros Hs; [reflexivity|].
  apply not_elem_of_cons in Hs as [Hc Hs].
  cbn. rewrite decide_False by congruence. f_equal. exact (IH Hs).
Qed.

Lemma unquote_no_percent (s : pystr) : percent ∉ s -> unquote s = s.
Proof.
  intros Hs. unfold unquote. rewrite bool_decide_eq_false_2; [reflexivity|exact Hs].
Qed.

(** A string free of redirect markers, spaces and percent signs is its
    own normal form. *)
Lemma normalize_url_plain (y : pystr) :
  contains (py "uddg=http") y = false ->
  contains (py "/RU=http") y = false ->
  32 ∉ y -> percent ∉ y ->
  _normalize_url y = y.
Proof.
  intros Hd Hy Hs Hp. unfold _normalize_url.
  rewrite Hd, Hy. destruct y as [|c y]; [reflexivity|].
  cbn [truthy]. rewrite (replace_char_absent _ _ _ Hs).
  apply unquote_no_percent, Hp.
Qed.

End Normalisation.

(** C4, as stated, fails: a doubly encoded character is decoded once by
    each pass, so the second pass changes the result of the first. *)
Lemma normalize_url_not_idempotent :
  _normalize_url (_normalize_url (py "%2541")) <> _normalize_url (py "%2541")
  /\ _normalize_url (py "%2541") = py "%41"
  /\ _normalize_url (py "%41") = py "A".
Proof. vm_compute. repeat split; discriminate. Qed.

(** C4, amended: normalisation is idempotent at every input whose normal
    form contains no percent sign, no space and no redirect marker. *)
Theorem normalize_url_idempotent (x : pystr) :
  percent ∉ _normalize_url x ->
  32 ∉ _normalize_url x ->
  contains (py "uddg=http") (_normalize_url x) = false ->
  contains (py "/RU=http") (_normalize_url x) = false ->
  _normalize_url (_normalize_url x) = _normalize_url x.
Proof.
  intros Hp Hs Hd Hy. apply normalize_url_plain; assumption.
Qed.

Lemma normalize_url_idempotent_witness :
  _normalize_url (_normalize_url
     (py "//duckduckgo.com/l/?uddg=https%3A%2F%2Fexample.org%2Fa&rut=0f"))
  = _normalize_url
     (py "//duckduckgo.com/l/?uddg=https%3A%2F%2Fexample.org%2Fa&rut=0f").
Proof.
  apply normalize_url_idempotent.
  - vm_compute. intros Hin. repeat (apply elem_of_cons in Hin as [Hin|Hin]; [discriminate|]). inversion Hin.
  - vm_compute. intros Hin. repeat (apply elem_of_cons in Hin as [Hin|Hin]; [discriminate|]). inversion Hin.
  - vm_compute; reflexivity.
  - vm_compute; reflexivity.
Defined.

(** ** Provider parsers *)

Lemma filter_Forall_id {A} (P : A -> Prop) `{!forall x, Decision (P x)} (l : list A) :
  Forall P l -> filter P l = l.
Proof.
  induction 1 as [|x l Hx Hl IH]; [done|].
  rewrite filter_cons_True by done. by rewrite IH.
Qed.

Section FirstSeen.

Implicit Types (l earlier : list pystr) (x u : pystr).

Lemma filter_not_in_snoc earlier x l :
  filter (fun y => y ∉ earlier ++ [x]) l
  = filter (fun y => y ∉ earlier) (filter (fun y => y <> x) l).
Proof.
  rewrite list_filter_filter. apply list_filter_iff.
  intros y. rewrite not_elem_of_app, not_elem_of_cons. 
  split; [intros [? [? _]]; done | intros [? ?]; repeat split; [done..|apply not_elem_of_nil]].
Qed.

Lemma filter_not_in_known earlier x l :
  x ∈ earlier ->
  filter (fun y => y ∉ earlier) (filter (fun y => y <> x) l)
  = filter (fun y => y ∉ earlier) l.
Proof.
  intros Hx. rewrite list_filter_filter. apply list_filter_iff.
  intros y. split; [tauto|]. intros Hy. split; [done|]. intros ->. done.
Qed.

Lemma elem_of_first_seen l u : u ∈ first_seen l <-> u ∈ l.
Proof.
  induction l as [|x l IH]; [done|]. cbn [first_seen].
  rewrite !elem_of_cons, list_elem_of_filter, IH.
  destruct (decide (u = x)); tauto.
Qed.

Lemma NoDup_first_seen l : NoDup (first_seen l).
Proof.
  induction l as [|x l IH]; [constructor|]. cbn [first_seen].
  constructor; [|by apply NoDup_filter].
  rewrite list_elem_of_filter. tauto.
Qed.


Lemma first_seen_NoDup_id l : NoDup l -> first_seen l = l.
Proof.
  induction 1 as [|x l Hx Hl IH]; [done|]. cbn [first_seen]. rewrite IH.
  f_equal. apply filter_Forall_id, Forall_forall. intros y Hy ->. done.
Qed.

End FirstSeen.

Section ParserLoop.

Variable cand : element -> option pystr.

(** The loop keeps, after what it already holds, the anchors not seen
    before, each at its first appearance. *)
Lemma foldl_visit (es : list element) (cache : gset pystr) (res : list pystr) :
  (forall u, u ∈ cache <-> u ∈ res) ->
  (foldl (visit cand) (cache, res) es).2
  = res ++ filter (fun y => y ∉ res) (first_seen (omap cand es)).
Proof.
  revert cache res. induction es as [|e es IH]; intros cache res Hc.
  - cbn. by rewrite app_nil_r.
  - cbn [foldl].
    change (omap cand (e :: es))
      with (match cand e with Some y => y :: omap cand es | None => omap cand es end).
    unfold visit at 2. destruct (cand e) as [u|]; [|by apply IH].
    cbn [first_seen fst]. case_bool_decide as Hu.
    + rewrite (IH _ _ Hc). apply Hc in Hu.
      rewrite filter_cons_False by tauto.
      by rewrite filter_not_in_known.
    + assert (u ∉ res) as Hu' by (by rewrite <- Hc).
      unfold keep; cbn [fst snd]. rewrite IH.
      * rewrite filter_cons_True by done.
        rewrite filter_not_in_snoc. by rewrite <- app_assoc.
      * intros v. rewrite elem_of_union, elem_of_singleton, elem_of_app, list_elem_of_singleton, Hc.
        tauto.
Qed.

Lemma foldl_visit_init (es : list element) :
  (foldl (visit cand) parse_init es).2 = first_seen (omap cand es).
Proof.
  unfold parse_init. rewrite foldl_visit by set_solver.
  cbn. apply filter_Forall_id, Forall_forall. intros; apply not_elem_of_nil.
Qed.

End ParserLoop.

Lemma google_step_visit st e : google_step st e = visit (anchor_of Google) st e.
Proof.
  unfold google_step, visit, anchor_of.
  destruct (normalized _) as [u|]; [|done].
  destruct (truthy u), (startswith _ u); cbn; repeat case_bool_decide; done.
Qed.

Lemma bing_step_visit st e : bing_step st e = visit (anchor_of Bing) st e.
Proof.
  unfold bing_step, visit, anchor_of.
  destruct (normalized _) as [u|]; [|done].
  destruct (truthy u), (startswith _ u); cbn; repeat case_bool_decide; done.
Qed.

Lemma yahoo_step_visit st e : yahoo_step st e = visit (anchor_of Yahoo) st e.
Proof.
  unfold yahoo_step, visit, anchor_of.
  destruct (normalized _) as [u|]; [|done].
  destruct (truthy u); cbn; repeat case_bool_decide; done.
Qed.

Lemma duckduckgo_step_visit st e :
  duckduckgo_step st e = visit (anchor_of DuckDuckGo) st e.
Proof.
  unfold duckduckgo_step, visit, anchor_of.
  destruct (normalized _) as [u|]; [|done].
  destruct (truthy u); cbn; repeat case_bool_decide; done.
Qed.

Lemma foldl_ext_step {S E} (f g : S -> E -> S) (l : list E) (s : S) :
  (forall s e, f s e = g s e) -> foldl f s l = foldl g s l.
Proof.
  intros Hfg. revert s. induction l as [|e l IH]; intros s; [done|].
  cbn. by rewrite Hfg, IH.
Qed.

(** Every parser returns the matching anchors of the page, each at its
    first appearance. *)
Lemma parse_first_seen (p : provider) (tree : element) :
  parse p tree = first_seen (anchors p tree).
Proof.
  unfold anchors. rewrite <- foldl_visit_init.
  destruct p; cbn [parse selected];
    unfold google_results, bing_results, yahoo_results, duckduckgo_results;
    f_equal; apply foldl_ext_step;
    auto using google_step_visit, bing_step_visit, yahoo_step_visit,
      duckduckgo_step_visit.
Qed.

Lemma NoDup_parse (p : provider) (tree : element) : NoDup (parse p tree).
Proof. rewrite parse_first_seen. apply NoDup_first_seen. Qed.








(** On the DuckDuckGo page of [Pages]: three first anchors, one of them
    a repetition, two URLs returned. *)
Lemma duckduckgo_links_parsed :
  first_anchors DuckDuckGo Pages.duckduckgo_links
  = [py "http://a.test/"; py "http://b.test/"; py "http://a.test/"]
  /\ dup_count [] (first_anchors DuckDuckGo Pages.duckduckgo_links) = 1%nat
  /\ parse DuckDuckGo Pages.duckduckgo_links = [py "http://a.test/"; py "http://b.test/"].
Proof. vm_compute. done. Qed.


(** Where no container holds more than one anchor, the anchors matching
    the rule are the first anchors. *)
Lemma rule_anchors_single (p : provider) (tree : element) :
  Forall (fun e => (length (rule_hrefs p e) <= 1)%nat) (selected p tree) ->
  rule_anchors p tree = first_anchors p tree.
Proof.
  unfold rule_anchors, first_anchors, first_urls, anchor_urls.
  intros Hall. f_equal.
  induction Hall as [|e es He Hall IH]; [done|].
  rewrite !bind_cons, IH. by rewrite take_ge.
Qed.

(** The Google and Bing parsers test the scheme of what they keep. *)
Lemma google_bing_start_with_http (p : provider) (tree : element) :
  p = Google \/ p = Bing ->
  Forall (fun u => startswith (py "http") u = true) (parse p tree).
Proof.
  intros Hp. apply Forall_forall. intros u Hu.
  rewrite parse_first_seen, elem_of_first_seen in Hu. unfold anchors in Hu.
  apply list_elem_of_omap in Hu as (e & _ & He).
  unfold anchor_of in He. destruct (normalized _) as [v|]; [|done].
  destruct Hp as [-> | ->]; destruct (truthy v), (startswith (py "http") v) eqn:Hv;
    cbn in He; by simplify_eq.
Qed.

(** C3 fails on the code: the Yahoo and DuckDuckGo parsers keep an anchor
    whatever its scheme. *)
Theorem yahoo_duckduckgo_keep_other_schemes :
  parse Yahoo Demo.yahoo_page = [py "ftp://files.test/"]
  /\ parse DuckDuckGo Demo.duckduckgo_page = [py "/settings"]
  /\ startswith (py "http") (py "ftp://files.test/") = false
  /\ startswith (py "http") (py "/settings") = false.
Proof. vm_compute. done. Qed.

(** ** The monad *)

Section Monad.
Context `{Collab}.

Lemma bind_inr_inv {A B} (m : M A) (k : A -> M B) w b w' :
  bind m k w = (inr b, w') ->
  exists a w1, m w = (inr a, w1) /\ k a w1 = (inr b, w').
Proof.
  unfold bind. destruct (m w) as [[e|a] w1]; [discriminate|]. eauto.
Qed.

Lemma bind_inr {A B} (m : M A) (k : A -> M B) w a w1 :
  m w = (inr a, w1) -> bind m k w = k a w1.
Proof. unfold bind. by intros ->. Qed.

Lemma bind_inl {A B} (m : M A) (k : A -> M B) w e w1 :
  m w = (inl e, w1) -> bind m k w = (inl e, w1).
Proof. unfold bind. by intros ->. Qed.

Lemma ret_inv {A} (a b : A) (w w' : World) :
  ret a w = (inr b, w') -> a = b /\ w = w'.
Proof. unfold ret. intros. by simplify_eq. Qed.

End Monad.

(** Inversion of a run that returned. *)
Ltac inv_run :=
  repeat match goal with
    | Hr : bind _ _ _ = (inr _, _) |- _ =>
        apply bind_inr_inv in Hr as (? & ? & ? & ?)
    | Hr : ret _ _ = (inr _, _) |- _ =>
        apply ret_inv in Hr as [? ?]; subst
    | Hr : lift_result _ _ = (inr _, _) |- _ =>
        unfold lift_result in Hr; simplify_eq
    end.

(** ** Thread pools *)

Section PoolFacts.
Context `{Collab}.

Lemma run_pool_spec {A} (n mw : nat) (pending : list (nat * M A)) w finished w' :
  (0 < mw)%nat -> length pending = n ->
  run_pool n mw pending w = (finished, w') ->
  finished.*1 ≡ₚ pending.*1
  /\ Forall (fun ir => exists t, (ir.1, t) ∈ pending /\ outcome_of t ir.2) finished.
Proof.
  intros Hmw. revert pending w finished w'.
  induction n as [|n IH]; intros pending w finished w' Hlen Hrun.
  - destruct pending; [|discriminate]. cbn in Hrun. by simplify_eq.
  - cbn [run_pool] in Hrun. cbv zeta in Hrun.
    destruct (sched_pick _ _) as [j e].
    match type of Hrun with
    | context [pending !! ?k] =>
        destruct (pending !! k) as [[i task]|] eqn:Hit
    end.
    2:{ apply lookup_ge_None in Hit. exfalso. revert Hit. apply Nat.lt_nge.
        eapply Nat.lt_le_trans; [apply Nat.mod_upper_bound|apply Nat.le_min_r].
        destruct pending; [discriminate|]. destruct mw; [lia|]. discriminate. }
    destruct (task _) as [r w1] eqn:Htask.
    destruct (run_pool n mw _ w1) as [rest w2] eqn:Hrest.
    simplify_eq.
    apply IH in Hrest as [Hperm Hall].
    2:{ rewrite length_delete by eauto. lia. }
    pose proof (delete_Permutation _ _ _ Hit) as Hdel.
    split.
    + cbn. rewrite Hperm. symmetry.
      exact (fmap_Permutation fst _ _ Hdel).
    + constructor.
      * exists task. split; [by eapply list_elem_of_lookup_2|by eexists _, _].
      * eapply Forall_impl; [exact Hall|]. intros [i' r'] (t & Hin & Ho).
        exists t. split; [|done]. by eapply list_elem_of_delete_inv.
Qed.

Lemma submit_all_fst {A} (tasks : list (M A)) :
  (submit_all tasks).*1 = seq 0 (length tasks).
Proof.
  unfold submit_all. rewrite fmap_imap.
  apply list_eq. intros i. rewrite list_lookup_imap.
  destruct (decide (i < length tasks)%nat) as [Hi|Hi].
  - destruct (lookup_lt_is_Some_2 _ _ Hi) as [t ->]. cbn.
    by rewrite lookup_seq_lt.
  - rewrite lookup_ge_None_2 by lia. cbn. by rewrite lookup_seq_ge by lia.
Qed.

Lemma elem_of_submit_all {A} (tasks : list (M A)) i t :
  (i, t) ∈ submit_all tasks <-> tasks !! i = Some t.
Proof.
  unfold submit_all. rewrite elem_of_lookup_imap. split.
  - intros (i' & t' & ? & ?). by simplify_eq.
  - eauto.
Qed.

(** Every submitted task has run once, whatever the order. *)
Lemma run_all_spec {A} (mw : nat) (tasks : list (M A)) w finished w' :
  (0 < mw)%nat ->
  run_all mw tasks w = (finished, w') ->
  finished.*1 ≡ₚ seq 0 (length tasks)
  /\ Forall (fun ir => exists t, tasks !! ir.1 = Some t /\ outcome_of t ir.2) finished.
Proof.
  intros Hmw Hrun. unfold run_all in Hrun.
  apply run_pool_spec in Hrun as [Hperm Hall]; [|done|].
  2:{ unfold submit_all. by rewrite length_imap. }
  rewrite submit_all_fst in Hperm. split; [done|].
  eapply Forall_impl; [exact Hall|]. intros ir (t & Hin & Ho).
  exists t. by rewrite <- elem_of_submit_all.
Qed.

Lemma future_at_Some {A} (finished : list (nat * (exn + A))) i :
  i ∈ finished.*1 ->
  exists r, future_at i finished = Some r /\ (i, r) ∈ finished.
Proof.
  induction finished as [|[k r] finished IH]; intros Hi; [by apply elem_of_nil in Hi|].
  cbn [future_at]. case_decide as Hk.
  - subst. exists r. split; [done|by left].
  - cbn in Hi. apply elem_of_cons in Hi as [?|Hi]; [done|].
    destruct (IH Hi) as (r' & ? & ?). exists r'. split; [done|by right].
Qed.

(** Read in submission order, the futures line up with the tasks. *)
Lemma futures_in_order {A} (tasks : list (M A)) (finished : list (nat * (exn + A))) :
  finished.*1 ≡ₚ seq 0 (length tasks) ->
  Forall (fun ir => exists t, tasks !! ir.1 = Some t /\ outcome_of t ir.2) finished ->
  Forall2 outcome_of tasks
    (omap (fun i => future_at i finished) (seq 0 (length tasks))).
Proof.
  intros Hperm Hall.
  assert (forall i, (i < length tasks)%nat ->
            exists r t, future_at i finished = Some r
                        /\ tasks !! i = Some t /\ outcome_of t r) as Hfut.
  { intros i Hi.
    destruct (future_at_Some finished i) as (r & Hr & Hin).
    { rewrite Hperm. apply elem_of_seq. lia. }
    rewrite Forall_forall in Hall. destruct (Hall _ Hin) as (t & ? & ?).
    by exists r, t. }
  clear Hperm Hall. revert Hfut.
  induction tasks as [|t tasks IH] using rev_ind; intros Hfut; [constructor|].
  rewrite length_app. cbn [length]. rewrite seq_app, omap_app. cbn [seq omap].
  apply Forall2_app.
  - apply IH. intros i Hi. destruct (Hfut i) as (r & t' & ? & Ht & ?).
    { rewrite length_app. lia. }
    rewrite lookup_app_l in Ht by done. by exists r, t'.
  - destruct (Hfut (length tasks)) as (r & t' & Hr & Ht & Ho).
    { rewrite length_app. cbn. lia. }
    rewrite Nat.add_0_l. cbn. rewrite Hr. cbn.
    rewrite lookup_app_r, Nat.sub_diag in Ht by done. cbn in Ht. simplify_eq.
    by repeat constructor.
Qed.

Lemma results_of_inr {A} (tasks : list (M A)) (futures : list (exn + A)) :
  Forall2 outcome_of tasks futures ->
  Forall (fun t => forall w, exists a w', t w = (inr a, w')) tasks ->
  exists l, results_of futures = inr l
            /\ Forall2 (fun t a => outcome_of t (inr a)) tasks l.
Proof.
  induction 1 as [|t r tasks futures Ho Hrest IH]; intros Htot.
  - exists []. by split; [|constructor].
  - apply Forall_cons in Htot as [Ht Htot].
    destruct (IH Htot) as (l & Hl & Hall).
    destruct Ho as (w1 & w2 & Hrun).
    destruct (Ht w1) as (a & w3 & Ha). rewrite Ha in Hrun. simplify_eq.
    exists (a :: l). cbn. rewrite Hl. split; [done|].
    constructor; [by exists w1, w2|done].
Qed.

(** [executor.map] over tasks that never raise: one result per task, in
    submission order. *)
Lemma executor_map_spec {A} (mw : nat) (tasks : list (M A)) w :
  (0 < mw)%nat ->
  Forall (fun t => forall w, exists a w', t w = (inr a, w')) tasks ->
  exists l w', executor_map mw tasks w = (inr l, w')
               /\ Forall2 (fun t a => outcome_of t (inr a)) tasks l.
Proof.
  intros Hmw Htot. unfold executor_map.
  destruct (run_all mw tasks w) as [finished w'] eqn:Hrun.
  apply run_all_spec in Hrun as [Hperm Hall]; [|done].
  destruct (results_of_inr tasks _ (futures_in_order _ _ Hperm Hall) Htot)
    as (l & Hl & HF).
  exists l, w'. by rewrite Hl.
Qed.

(** [as_completed]: the outcomes of the tasks, in some order. *)
Lemma as_completed_spec {A} (mw : nat) (tasks : list (M A)) w :
  (0 < mw)%nat ->
  exists futures w' order,
    as_completed mw tasks w = (inr futures, w')
    /\ order ≡ₚ seq 0 (length tasks)
    /\ Forall2 (fun i r => exists t, tasks !! i = Some t /\ outcome_of t r)
         order futures.
Proof.
  intros Hmw. unfold as_completed.
  destruct (run_all mw tasks w) as [finished w'] eqn:Hrun.
  apply run_all_spec in Hrun as [Hperm Hall]; [|done].
  exists (finished.*2), w', (finished.*1). repeat split; [done|].
  clear Hperm. induction Hall as [|[i r] finished Hir Hall IH]; [constructor|].
  cbn. constructor; [exact Hir|exact IH].
Qed.

End PoolFacts.

(** ** Slices and ordered dictionaries *)

Lemma slice_to_length {A} (k : Z) (l : list A) :
  (0 <= k)%Z -> (Z.of_nat (length (slice_to k l)) <= k)%Z.
Proof.
  intros Hk. unfold slice_to. rewrite (proj2 (Z.leb_le 0 k) Hk).
  rewrite length_take. lia.
Qed.

Lemma slice_to_all {A} (k : Z) (l : list A) :
  (Z.of_nat (length l) <= k)%Z -> slice_to k l = l.
Proof.
  intros Hk. unfold slice_to. rewrite (proj2 (Z.leb_le 0 k)) by lia.
  apply take_ge. lia.
Qed.

Lemma slice_to_sublist {A} (k : Z) (l : list A) : slice_to k l `sublist_of` l.
Proof. unfold slice_to. destruct (0 <=? k)%Z; apply sublist_take. Qed.

Lemma NoDup_slice_to {A} (k : Z) (l : list A) : NoDup l -> NoDup (slice_to k l).
Proof. intros Hl. eapply sublist_NoDup; [exact Hl|apply slice_to_sublist]. Qed.

Lemma dict_keys_set {V} (k : pystr) (v : V) (d : dict V) :
  dict_keys (dict_set k v d)
  = if bool_decide (k ∈ dict_keys d) then dict_keys d else dict_keys d ++ [k].
Proof.
  unfold dict_keys. induction d as [|[k' v'] d IH].
  { cbn. by rewrite bool_decide_eq_false_2 by apply not_elem_of_nil. }
  cbn [dict_set]. destruct (decide (k' = k)) as [Hk|Hk].
  - subst. cbn. rewrite bool_decide_eq_true_2; [done|by left].
  - cbn. rewrite IH. destruct (decide (k ∈ d.*1)) as [Hin|Hin].
    all: rewrite ?(bool_decide_eq_true_2 _ Hin), ?(bool_decide_eq_false_2 _ Hin).
    + rewrite bool_decide_eq_true_2; [done|by right].
    + rewrite bool_decide_eq_false_2; [done|].
      rewrite not_elem_of_cons. split; [congruence|done].
Qed.

Lemma foldl_dict_set (l : list pystr) (d : dict unit) :
  dict_keys (foldl (fun d k => dict_set k () d) d l)
  = dict_keys d ++ filter (fun y => y ∉ dict_keys d) (first_seen l).
Proof.
  revert d. induction l as [|x l IH]; intros d.
  - cbn. by rewrite app_nil_r.
  - cbn [foldl first_seen]. rewrite IH, dict_keys_set. case_bool_decide as Hx.
    + rewrite filter_cons_False by tauto. by rewrite filter_not_in_known.
    + rewrite filter_cons_True by done.
      rewrite filter_not_in_snoc. by rewrite <- app_assoc.
Qed.

(** [list(dict.fromkeys(l))] keeps the first appearance of every item. *)
Lemma dict_fromkeys_first_seen (l : list pystr) :
  dict_keys (dict_fromkeys l) = first_seen l.
Proof.
  unfold dict_fromkeys. rewrite foldl_dict_set. cbn.
  apply filter_Forall_id, Forall_forall. intros; apply not_elem_of_nil.
Qed.

(** ** The search engine *)

Section SearchFacts.
Context `{Collab}.

(** A provider other than [auto] never consults the sub-engines. *)
Lemma search_body_concrete sub1 sub2 (provider q : pystr) (k : Z) :
  provider <> py "auto" ->
  search_body sub1 provider q k = search_body sub2 provider q k.
Proof. intros Hp. unfold search_body. repeat case_decide; done. Qed.

Lemma engines_not_auto (p : pystr) : p ∈ engines -> p <> py "auto".
Proof.
  unfold engines. intros Hp ->.
  repeat (apply elem_of_cons in Hp as [Hp|Hp]; [vm_compute in Hp; discriminate|]).
  by apply elem_of_nil in Hp.
Qed.

(** The engines created by the auto branch search as [search] does. *)
Lemma search_chosen_engines (p q : pystr) (k : Z) :
  p ∈ engines -> search_chosen p q k = search p q k.
Proof. intros Hp. apply search_body_concrete, engines_not_auto, Hp. Qed.

Lemma search_auto_unfold (q : pystr) (k : Z) :
  search (py "auto") q k
  = (let* chosen := random_sample engines 2 in
     let* executor := ThreadPoolExecutor 2 in
     let* futures :=
       as_completed executor
         ((fun eng => search_chosen eng q k) <$> chosen) in
     ret (slice_to k (dict_keys (dict_fromkeys (foldl extend_result [] futures))))).
Proof.
  unfold search, search_body.
  repeat (let Hp := fresh in
          case_decide as Hp; [vm_compute in Hp; discriminate|]).
  rewrite decide_True by reflexivity. reflexivity.
Qed.

(** Whatever the provider, the URLs returned are distinct. *)
Lemma search_body_NoDup sub (provider q : pystr) (k : Z) w l w' :
  search_body sub provider q k w = (inr l, w') -> NoDup l.
Proof.
  unfold search_body, _search_google, _search_bing, _search_yahoo,
    _search_duckduckgo.
  repeat case_decide; intros Hrun; inv_run.
  - apply NoDup_slice_to, (NoDup_parse Google).
  - apply NoDup_slice_to, (NoDup_parse Bing).
  - apply NoDup_slice_to, (NoDup_parse Yahoo).
  - apply NoDup_slice_to, (NoDup_parse DuckDuckGo).
  - apply NoDup_slice_to. rewrite dict_fromkeys_first_seen. apply NoDup_first_seen.
  - constructor.
Qed.

Lemma search_body_cap sub (provider q : pystr) (k : Z) w l w' :
  (0 <= k)%Z ->
  search_body sub provider q k w = (inr l, w') ->
  (Z.of_nat (length l) <= k)%Z.
Proof.
  intros Hk. unfold search_body.
  repeat case_decide; intros Hrun; inv_run;
    try (by apply slice_to_length).
  cbn. lia.
Qed.

End SearchFacts.

(** C6, as stated, fails: a negative [num_results] drops items from the
    end of the parser's list, and what remains is longer than the cap. *)
Lemma search_negative_cap :
  exists w',
    search (py "google") (py "q") (-1) (Demo.world [])
    = (inr [py "http://a.test/"; py "http://b.test/"], w')
    /\ ~ (Z.of_nat (length [py "http://a.test/"; py "http://b.test/"]) <= -1)%Z.
Proof. eexists. split; [vm_compute; reflexivity|]. cbn. lia. Qed.

(** C6, amended: for every provider, query and [num_results = k] with
    [0 <= k], a search that returns has at most [k] URLs. *)
Theorem search_cap `{Collab} (provider q : pystr) (k : Z) (w : World)
    (l : list pystr) (w' : World) :
  (0 <= k)%Z ->
  search provider q k w = (inr l, w') ->
  (Z.of_nat (length l) <= k)%Z.
Proof. apply search_body_cap. Qed.

Lemma search_cap_witness :
  (Z.of_nat (length [py "http://a.test/"; py "http://b.test/"]) <= 2)%Z.
Proof.
  apply (search_cap (py "google") (py "q") 2 (Demo.world []) _
           (snd (search (py "google") (py "q") 2 (Demo.world [])))).
  - lia.
  - vm_compute. reflexivity.
Defined.

(** ** Auto mode *)

Lemma elem_of_list_insert_inv {A} (l : list A) (j : nat) (y x : A) :
  x ∈ <[j:=y]> l -> x = y \/ x ∈ l.
Proof.
  intros (i & Hi)%list_elem_of_lookup_1.
  destruct (decide (i = j)) as [->|Hne].
  - destruct (decide (j < length l)%nat).
    + rewrite list_lookup_insert_eq in Hi by done. left. congruence.
    + rewrite list_insert_ge in Hi by lia. right. by eapply list_elem_of_lookup_2.
  - rewrite list_lookup_insert_ne in Hi by done. right.
    by eapply list_elem_of_lookup_2.
Qed.

Section AutoFacts.
Context `{Collab}.

Lemma sample_pool_elem {A} (k n : nat) (pool : list A) e l e' :
  sample_pool k n pool e = (l, e') -> forall x, x ∈ l -> x ∈ pool.
Proof.
  revert n pool e l e'. induction k as [|k IH]; intros n pool e l e' Hs x Hx.
  - cbn in Hs. simplify_eq. by apply elem_of_nil in Hx.
  - cbn [sample_pool] in Hs. destruct (randbelow n e) as [j e1].
    cbv zeta in Hs.
    destruct (pool !! (j mod n)%nat) as [y|] eqn:Hy;
      [|simplify_eq; by apply elem_of_nil in Hx].
    destruct (pool !! (n - 1)%nat) as [last|] eqn:Hlast;
      [|simplify_eq; by apply elem_of_nil in Hx].
    destruct (sample_pool k _ _ e1) as [rest e2] eqn:Hrest. simplify_eq.
    apply elem_of_cons in Hx as [->|Hx]; [by eapply list_elem_of_lookup_2|].
    specialize (IH _ _ _ _ _ Hrest x Hx).
    apply elem_of_list_insert_inv in IH as [->|?]; [|done].
    by eapply list_elem_of_lookup_2.
Qed.

(** What [random.sample] returns was in the population. *)
Lemma random_sample_elem {A} (population : list A) (k : nat) w l w' :
  random_sample population k w = (inr l, w') -> forall x, x ∈ l -> x ∈ population.
Proof.
  unfold random_sample. case_decide; [|discriminate].
  unfold lift_env. destruct (sample_pool _ _ _ _) as [l0 e] eqn:Hs.
  intros ?; simplify_eq. by eapply sample_pool_elem.
Qed.

(** The two futures of the auto branch, in completion order. *)
Lemma auto_futures (a b : pystr) (q : pystr) (k : Z) w :
  exists ra rb w',
    outcome_of (search_chosen a q k) ra
    /\ outcome_of (search_chosen b q k) rb
    /\ (as_completed 2 ((fun eng => search_chosen eng q k) <$> [a; b]) w
          = (inr [ra; rb], w')
        \/ as_completed 2 ((fun eng => search_chosen eng q k) <$> [a; b]) w
          = (inr [rb; ra], w')).
Proof.
  destruct (as_completed_spec 2 ((fun eng => search_chosen eng q k) <$> [a; b]) w)
    as (futures & w' & order & Hrun & Hperm & Hall); [lia|].
  cbn in Hperm. symmetry in Hperm.
  apply Permutation_length_2_inv in Hperm as [-> | ->];
    apply Forall2_cons_inv_l in Hall as (r1 & f1 & (t1 & Ht1 & Ho1) & Hall & ->);
    apply Forall2_cons_inv_l in Hall as (r2 & f2 & (t2 & Ht2 & Ho2) & Hall & ->);
    apply Forall2_nil_inv_l in Hall as ->;
    cbn in Ht1, Ht2; simplify_eq.
  - exists r1, r2, w'. auto.
  - exists r2, r1, w'. auto.
Qed.

Lemma extend_two (r1 r2 : exn + list pystr) (e : exn) (L : list pystr) :
  (r1 = inl e /\ r2 = inr L) \/ (r1 = inr L /\ r2 = inl e) ->
  foldl extend_result [] [r1; r2] = L.
Proof. intros [[-> ->]|[-> ->]]; cbn; by rewrite ?app_nil_r. Qed.

(** [search] solves the recursive equation of the source: the engines
    that its auto branch creates may be taken to run [search] itself. *)
Lemma search_unfold (provider q : pystr) (k : Z) (w : World) :
  search_body search provider q k w = search provider q k w.
Proof.
  destruct (decide (provider = py "auto")) as [->|Hp].
  2:{ by rewrite (search_body_concrete search search_chosen provider q k Hp). }
  rewrite search_auto_unfold. unfold search_body.
  repeat (let Hd := fresh in
          case_decide as Hd; [vm_compute in Hd; discriminate|]).
  rewrite decide_True by reflexivity.
  unfold bind at 1 4.
  destruct (random_sample engines 2 w) as [[e|chosen] w1] eqn:Hsample; [done|].
  replace ((fun eng => search eng q k) <$> chosen)
    with ((fun eng => search_chosen eng q k) <$> chosen); [done|].
  apply list_fmap_ext. intros i eng Heng.
  apply list_elem_of_lookup_2 in Heng.
  apply (random_sample_elem _ _ _ _ _ Hsample) in Heng.
  by rewrite search_chosen_engines.
Qed.

End AutoFacts.

(** C5, as stated, fails. With [num_results = -1] the working provider
    returns [L] of two URLs and auto mode returns one of them only; with
    [num_results = 0] it returns the empty [L], so an empty result. *)
Lemma auto_search_not_exactly_L :
  let a := py "http://a.test/" in
  let b := py "http://b.test/" in
  let w := Demo.world [3; 0]%nat in
  (random_sample engines 2 w).1 = inr [py "duckduckgo"; py "google"]
  /\ (forall k (w0 : @World Demo.collab), exists e w1,
        search (py "duckduckgo") (py "q") k w0 = (inl e, w1))
  /\ (forall w0 : @World Demo.collab, exists w1,
        search (py "google") (py "q") (-1) w0 = (inr [a; b], w1))
  /\ (search (py "auto") (py "q") (-1) w).1 = inr [a]
  /\ [a] <> [a; b]
  /\ (forall w0 : @World Demo.collab, exists w1,
        search (py "google") (py "q") 0 w0 = (inr [], w1))
  /\ (search (py "auto") (py "q") 0 w).1 = inr [].
Proof.
  repeat split.
  - intros k [e f s r]. eexists _, _. reflexivity.
  - intros [e f s r]. eexists. vm_compute. reflexivity.
  - discriminate.
  - intros [e f s r]. eexists. vm_compute. reflexivity.
Qed.

(** C5, amended: in auto mode with [0 <= num_results], when the search of
    one of the two chosen providers raises in every world and the search
    of the other returns the list [L] in every world, [search] returns
    exactly [L] and does not raise, in either completion order. *)
Theorem auto_search_resilient `{Collab} (q : pystr) (k : Z) (w w1 : World)
    (chosen : list pystr) (failing working : pystr) (L : list pystr) :
  (0 <= k)%Z ->
  random_sample engines 2 w = (inr chosen, w1) ->
  chosen = [failing; working] \/ chosen = [working; failing] ->
  (forall w0, exists e w0', search failing q k w0 = (inl e, w0')) ->
  (forall w0, exists w0', search working q k w0 = (inr L, w0')) ->
  exists w', search (py "auto") q k w = (inr L, w').
Proof.
  intros Hk Hsample Hchosen Hfail Hwork.
  assert (failing ∈ engines /\ working ∈ engines) as [Hf Hw].
  { pose proof (random_sample_elem _ _ _ _ _ Hsample) as Hin.
    destruct Hchosen as [-> | ->]; split; apply Hin; set_solver. }
  assert (NoDup L /\ (Z.of_nat (length L) <= k)%Z) as [HL Hlen].
  { destruct (Hwork w) as (w0' & Hrun).
    split; [by eapply search_body_NoDup|by eapply search_body_cap]. }
  assert (forall r1 r2,
    outcome_of (search_chosen failing q k) r1 ->
    outcome_of (search_chosen working q k) r2 ->
    exists e, r1 = inl e /\ r2 = inr L) as Hout.
  { intros r1 r2 (wa & wa' & Ha) (wb & wb' & Hb).
    rewrite search_chosen_engines in Ha, Hb by done.
    destruct (Hfail wa) as (e & ? & He). destruct (Hwork wb) as (? & HL').
    exists e. split; congruence. }
  rewrite search_auto_unfold, (bind_inr _ _ _ _ _ Hsample).
  cbn [ThreadPoolExecutor Z.leb Z.compare]. unfold bind at 1, ret at 1.
  change (Z.to_nat 2) with 2%nat.
  assert (forall futures w',
    foldl extend_result [] futures = L ->
    as_completed 2 ((fun eng => search_chosen eng q k) <$> chosen) w1
      = (inr futures, w') ->
    exists w'', bind (as_completed 2 ((fun eng => search_chosen eng q k) <$> chosen))
      (fun futures => ret (slice_to k
         (dict_keys (dict_fromkeys (foldl extend_result [] futures))))) w1
      = (inr L, w'')) as Hfinish.
  { intros futures w' Hext Hrun. exists w'.
    rewrite (bind_inr _ _ _ _ _ Hrun). unfold ret. rewrite Hext.
    rewrite dict_fromkeys_first_seen, first_seen_NoDup_id by done.
    by rewrite slice_to_all. }
  destruct Hchosen as [-> | ->].
  - destruct (auto_futures failing working q k w1)
      as (ra & rb & w' & Ha & Hb & Hruns).
    destruct (Hout _ _ Ha Hb) as (e & -> & ->).
    destruct Hruns as [Hrun|Hrun]; (eapply Hfinish; [|exact Hrun]);
      eapply extend_two; eauto.
  - destruct (auto_futures working failing q k w1)
      as (ra & rb & w' & Ha & Hb & Hruns).
    destruct (Hout _ _ Hb Ha) as (e & -> & ->).
    destruct Hruns as [Hrun|Hrun]; (eapply Hfinish; [|exact Hrun]);
      eapply extend_two; eauto.
Qed.


Lemma auto_search_resilient_witness :
  exists w',
    search (py "auto") (py "q") 2 (Demo.world [3; 0]%nat)
    = (inr [py "http://a.test/"; py "http://b.test/"], w').
Proof.
  apply (auto_search_resilient (py "q") 2 (Demo.world [3; 0]%nat)
           (Demo.world []) [py "duckduckgo"; py "google"]
           (py "duckduckgo") (py "google")).
  - lia.
  - vm_compute. reflexivity.
  - left. reflexivity.
  - intros [e f s r]. eexists _, _. reflexivity.
  - intros [e f s r]. eexists. vm_compute. reflexivity.
Defined.

(** ** Bulk search *)

Section BulkSearchFacts.
Context `{Collab}.

(** A failing search becomes a record; nothing is raised. *)
Lemma search_with_error_handling_total (provider q : pystr) (k : Z) w :
  exists r w', _search_with_error_handling provider q k w = (inr r, w').
Proof.
  unfold _search_with_error_handling, try_except, bind, ret, print.
  destruct (search provider q k w) as [[e|l] w1]; eauto.
Qed.

Lemma search_with_error_handling_query (provider q : pystr) (k : Z) w r w' :
  _search_with_error_handling provider q k w = (inr r, w') -> query r = q.
Proof.
  unfold _search_with_error_handling, try_except, bind, ret, print.
  destruct (search provider q k w) as [[e|l] w1]; intros; by simplify_eq.
Qed.

Lemma bulk_search_workers (queries : list pystr) :
  (0 < (if truthy_list queries
        then Z.min 10 (Z.of_nat (length queries)) else 1))%Z.
Proof. destruct queries; cbn [truthy_list length]; lia. Qed.

Lemma ThreadPoolExecutor_positive (n : Z) w :
  (0 < n)%Z ->
  ThreadPoolExecutor n w = (inr (Z.to_nat n), w) /\ (0 < Z.to_nat n)%nat.
Proof.
  intros Hn. unfold ThreadPoolExecutor.
  rewrite (proj2 (Z.leb_gt n 0)) by lia. split; [done|lia].
Qed.

(** The records of a bulk search: one per query, in the order of the
    queries, each the outcome of the guarded search of its query. *)
Lemma bulk_search_records (provider : pystr) (queries : list pystr) (k : Z)
    (combined : bool) w :
  exists records w',
    bulk_search provider queries k combined w
    = (inr (if combined then VStr <$> foldl extend_urls [] records
            else VDict <$> records), w')
    /\ Forall2 (fun q r =>
                  query r = q
                  /\ outcome_of (_search_with_error_handling provider q k) (inr r))
         queries records.
Proof.
  unfold bulk_search.
  destruct (ThreadPoolExecutor_positive _ w (bulk_search_workers queries))
    as [Hpool Hmw].
  rewrite (bind_inr _ _ _ _ _ Hpool).
  destruct (executor_map_spec _
              ((fun q => _search_with_error_handling provider q k) <$> queries)
              w Hmw) as (records & w' & Hmap & Hall).
  { apply Forall_fmap, Forall_forall. intros q _ w0.
    apply search_with_error_handling_total. }
  exists records, w'. rewrite (bind_inr _ _ _ _ _ Hmap). split.
  - by destruct combined.
  - apply Forall2_fmap_l in Hall. eapply Forall2_impl; [exact Hall|].
    intros q r Ho. split; [|exact Ho].
    destruct Ho as (w1 & w2 & Hrun).
    by eapply search_with_error_handling_query.
Qed.

End BulkSearchFacts.

(** C1: with [combined = false], whatever the scheduler does, [bulk_search]
    returns one record per query, and the record at position [i] is the
    record of the query at position [i]: it names that query and is the
    outcome of its guarded search. *)
Theorem bulk_search_order `{Collab} (provider : pystr) (queries : list pystr)
    (k : Z) (w : World) :
  exists records w',
    bulk_search provider queries k false w = (inr (VDict <$> records), w')
    /\ length records = length queries
    /\ forall i q, queries !! i = Some q ->
         exists r, records !! i = Some r
                   /\ query r = q
                   /\ outcome_of (_search_with_error_handling provider q k) (inr r).
Proof.
  destruct (bulk_search_records provider queries k false w)
    as (records & w' & Hrun & Hall).
  exists records, w'. split; [exact Hrun|]. split.
  - symmetry. by eapply Forall2_length.
  - intros i q Hq.
    destruct (Forall2_lookup_l _ _ _ _ _ Hall Hq) as (r & Hr & Hquery & Ho).
    by exists r.
Qed.

(** [bulk_search] returns, it does not raise. *)
Lemma bulk_search_total `{Collab} (provider : pystr) (queries : list pystr)
    (k : Z) (combined : bool) (w : World) :
  exists l w', bulk_search provider queries k combined w = (inr l, w').
Proof.
  destruct (bulk_search_records provider queries k combined w)
    as (records & w' & Hrun & _). eauto.
Qed.

(** ** Bulk extraction *)

Section ExtractionFacts.
Context `{Collab}.

Lemma fetch_site_from_url_total (u : pyval) (type : pystr) (max_text : option Z) w :
  exists r w', fetch_site_from_url u type max_text w = (inr r, w').
Proof.
  unfold fetch_site_from_url, try_except, print.
  match goal with
  | |- context [bind ?m ?f w] => destruct (bind m f w) as [[e|r] w1]
  end; unfold bind, ret; eauto.
Qed.

Lemma collect_results_inr (futures : list (exn + option ExtractionRecord)) :
  Forall (fun r => exists a, r = inr a) futures ->
  exists l, collect_results futures = inr l.
Proof.
  induction 1 as [|r futures [a ->] _ [l IH]]; [by exists []|].
  cbn. rewrite IH. eauto.
Qed.

(** With at least one URL the pool is created and the collection
    returns. *)
Lemma collect_sites_total (us : list pyval) (type : pystr) (max_text : option Z) w :
  us <> [] ->
  exists l w', collect_sites us type max_text w = (inr l, w').
Proof.
  intros Hus. unfold collect_sites.
  destruct (ThreadPoolExecutor_positive (Z.of_nat (length us)) w) as [Hpool Hmw].
  { destruct us; [done|]. cbn [length]. lia. }
  rewrite (bind_inr _ _ _ _ _ Hpool).
  destruct (as_completed_spec (Z.to_nat (Z.of_nat (length us)))
              ((fun u => fetch_site_from_url u type max_text) <$> us) w Hmw)
    as (futures & w' & order & Hrun & _ & Hall).
  rewrite (bind_inr _ _ _ _ _ Hrun). unfold lift_result.
  destruct (collect_results_inr futures) as [l Hl]; [|rewrite Hl; eauto].
  apply Forall_lookup. intros i r Hr.
  destruct (Forall2_lookup_r _ _ _ _ _ Hall Hr) as (j & _ & t' & Ht' & w1 & w2 & Ho).
  apply list_lookup_fmap_Some in Ht' as (u & -> & _).
  destruct (fetch_site_from_url_total u type max_text w1) as (a & w3 & Ha).
  rewrite Ha in Ho. simplify_eq. eauto.
Qed.

End ExtractionFacts.

(** C2 fails on the code: with no URL to extract the pool is asked for
    zero workers and the bulk extraction raises, and with it the pipeline
    entry point. *)
Theorem bulk_extraction_raises_without_urls `{Collab} (provider type : pystr)
    (max_text : option Z) (k : Z) (combined : bool) (w : World) :
  fetch_site_from_url_bulk [] type max_text w
  = (inl (ValueError (py "max_workers must be greater than 0")), w)
  /\ auto_search_and_extract provider [] k combined w
     = (inl (ValueError (py "max_workers must be greater than 0")), w).
Proof. split; [reflexivity|]. destruct combined; reflexivity. Qed.

(** The same when every query fails: the searches are absorbed into
    records, no URL is left, and the extraction raises. *)
Lemma pipeline_raises_when_every_search_fails :
  (auto_search_and_extract (py "duckduckgo") [py "q"; py "r"] 3 true
     (Demo.world [])).1
  = inl (ValueError (py "max_workers must be greater than 0")).
Proof. vm_compute. reflexivity. Qed.

(** ** Files and requests *)

(** C9 fails on the code: a Bing search whose fetch succeeds writes the
    page body to the file [bing.html]. *)
Theorem bing_search_writes_file `{Collab} (q : pystr) (k : Z) (w : World)
    (body : bytes) (e : Env) :
  http_get (py "https://www.bing.com/search?q=" ++ q ++ py "&count=" ++ str_of_Z k)
    (env w) = (inr body, e) ->
  files (search (py "bing") q k w).2 = <[py "bing.html" := body]> (files w).
Proof.
  intros Hget.
  assert (search (py "bing") q k
          = (let* r := _search_bing q k in ret (slice_to k r))) as ->.
  { unfold search, search_body.
    case_decide as Hp; [vm_compute in Hp; discriminate|].
    rewrite decide_True by reflexivity. reflexivity. }
  unfold _search_bing, bind, fetch_get, write_file, lift_result, ret.
  rewrite Hget. cbn. by destruct (document_fromstring body).
Qed.

Lemma bing_search_writes_file_witness :
  files (search (py "bing") (py "q") 2 (Demo.world [])).2
  = <[py "bing.html" := Demo.body "B"]> ∅.
Proof.
  apply (bing_search_writes_file (py "q") 2 (Demo.world []) (Demo.body "B") []).
  vm_compute. reflexivity.
Defined.

(** The other three parsers have no such write. Here a request is taken
    to write no file, so their searches leave the files as they were. *)
Lemma other_searches_keep_files `{Collab} (provider q : pystr) (k : Z) (w : World) :
  provider ∈ [py "google"; py "yahoo"; py "duckduckgo"] ->
  files (search provider q k w).2 = files w.
Proof.
  intros Hp. unfold search, search_body.
  repeat (apply elem_of_cons in Hp as [->|Hp]);
    [| | |by apply elem_of_nil in Hp];
    repeat (let Hd := fresh in
            case_decide as Hd; [vm_compute in Hd; discriminate|]);
    rewrite decide_True by reflexivity;
    unfold _search_google, _search_yahoo, _search_duckduckgo, bind, fetch_get,
      lift_result, ret;
    destruct (http_get _ _) as [[?|content] ?]; cbn; try done;
    by destruct (document_fromstring content).
Qed.

(** C10: a provider string that is none of the five known ones makes
    [search] return the empty list and leave the world as it was: nothing
    raised, nothing requested. *)
Theorem search_unknown_provider `{Collab} (provider q : pystr) (k : Z) (w : World) :
  provider ∉ [py "google"; py "bing"; py "yahoo"; py "duckduckgo"; py "auto"] ->
  search provider q k w = (inr [], w).
Proof.
  intros Hp. unfold search, search_body.
  repeat (case_decide; [subst; exfalso; apply Hp; set_solver|]).
  reflexivity.
Qed.

Lemma search_unknown_provider_witness :
  search (py "ask") (py "q") 2 (Demo.world []) = (inr [], Demo.world []).
Proof.
  apply search_unknown_provider.
  intros Hin.
  repeat (apply elem_of_cons in Hin as [Hin|Hin]; [vm_compute in Hin; discriminate|]).
  by apply elem_of_nil in Hin.
Defined.

(** ** Ranking *)

Section Ranking.

Implicit Types (x y : ExtractionRecord) (l : list ExtractionRecord).

Lemma insert_desc_perm x l : insert_desc x l ≡ₚ x :: l.
Proof.
  induction l as [|y l IH]; [done|]. cbn [insert_desc].
  destruct (sort_key x <? sort_key y)%nat; [|done].
  rewrite IH. apply Permutation_swap.
Qed.

Lemma sorted_desc_perm l : sorted_desc l ≡ₚ l.
Proof.
  induction l as [|x l IH]; [done|]. cbn [sorted_desc foldr].
  rewrite insert_desc_perm. by constructor.
Qed.

Lemma insert_desc_sorted x l :
  StronglySorted longer_first l -> StronglySorted longer_first (insert_desc x l).
Proof.
  induction 1 as [|y l Hl IH Hy]; [repeat constructor|].
  cbn [insert_desc]. destruct (sort_key x <? sort_key y)%nat eqn:Hxy.
  - apply Nat.ltb_lt in Hxy. constructor; [exact IH|].
    rewrite insert_desc_perm. constructor; [unfold longer_first; lia|exact Hy].
  - apply Nat.ltb_ge in Hxy. constructor; [by constructor|].
    constructor; [exact Hxy|].
    eapply Forall_impl; [exact Hy|]. unfold longer_first. intros; lia.
Qed.

Lemma sorted_desc_sorted l : StronglySorted longer_first (sorted_desc l).
Proof.
  induction l as [|x l IH]; [constructor|].
  cbn [sorted_desc foldr]. by apply insert_desc_sorted.
Qed.

(** An insertion passes only strictly longer records, so it keeps the
    order of the records of any one length. *)
Lemma insert_desc_stable (n : nat) x l :
  of_length n (insert_desc x l) = of_length n (x :: l).
Proof.
  unfold of_length. induction l as [|y l IH]; [done|]. cbn [insert_desc].
  destruct (sort_key x <? sort_key y)%nat eqn:Hxy; [|done].
  apply Nat.ltb_lt in Hxy.
  rewrite (filter_cons _ y), IH, !(filter_cons _ x), (filter_cons _ y).
  repeat case_decide; try done; lia.
Qed.

Lemma sorted_desc_stable (n : nat) l : of_length n (sorted_desc l) = of_length n l.
Proof.
  induction l as [|x l IH]; [done|]. cbn [sorted_desc foldr].
  rewrite insert_desc_stable. unfold of_length in *.
  rewrite !(filter_cons _ x). fold (sorted_desc l). by rewrite IH.
Qed.

End Ranking.

(** C8: whatever records the bulk extraction has collected, it returns a
    permutation of them (each once), longest content first, and the
    records of equal length keep the order in which they were collected. *)
Theorem bulk_extraction_ranking `{Collab} (us : list pyval) (type : pystr)
    (max_text : option Z) (w : World) (collected : list ExtractionRecord)
    (w' : World) :
  collect_sites us type max_text w = (inr collected, w') ->
  exists out,
    fetch_site_from_url_bulk us type max_text w = (inr out, w')
    /\ out ≡ₚ collected
    /\ StronglySorted longer_first out
    /\ forall n, of_length n out = of_length n collected.
Proof.
  intros Hrun. exists (sorted_desc collected). repeat split.
  - unfold fetch_site_from_url_bulk. by rewrite (bind_inr _ _ _ _ _ Hrun).
  - apply sorted_desc_perm.
  - apply sorted_desc_sorted.
  - intros n. apply sorted_desc_stable.
Qed.

Lemma bulk_extraction_ranking_witness :
  let site (u c : string) := mkExtractionRecord (VStr (py u)) (py c) in
  let a := site "http://a.test/" "aaaa" in
  let b := site "http://b.test/" "bb" in
  let c := site "http://c.test/" "cccc" in
  exists out,
    fetch_site_from_url_bulk [url a; url b; url c] (py "markdown") None
      (Demo.world [1; 1; 0]%nat)
    = (inr out, (collect_sites [url a; url b; url c] (py "markdown") None
                   (Demo.world [1; 1; 0]%nat)).2)
    /\ out ≡ₚ [b; c; a]
    /\ StronglySorted longer_first out
    /\ forall n, of_length n out = of_length n [b; c; a].
Proof.
  intros site a b c.
  apply (bulk_extraction_ranking [url a; url b; url c] (py "markdown") None
           (Demo.world [1; 1; 0]%nat) [b; c; a]).
  vm_compute. reflexivity.
Defined.

(** With at least one URL the bulk extraction returns, it does not
    raise. *)
Lemma fetch_site_from_url_bulk_total `{Collab} (us : list pyval) (type : pystr)
    (max_text : option Z) (w : World) :
  us <> [] ->
  exists out w', fetch_site_from_url_bulk us type max_text w = (inr out, w').
Proof.
  intros Hus.
  destruct (collect_sites_total us type max_text w Hus) as (l & w' & Hrun).
  exists (sorted_desc l), w'.
  unfold fetch_site_from_url_bulk. by rewrite (bind_inr _ _ _ _ _ Hrun).
Qed.

Example ranking_keeps_collection_order_on_ties :
  (fetch_site_from_url_bulk
     [VStr (py "http://a.test/"); VStr (py "http://b.test/");
      VStr (py "http://c.test/")] (py "markdown") None
     (Demo.world [1; 1; 0]%nat)).1
  = inr [mkExtractionRecord (VStr (py "http://c.test/")) (py "cccc");
         mkExtractionRecord (VStr (py "http://a.test/")) (py "aaaa");
         mkExtractionRecord (VStr (py "http://b.test/")) (py "bb")].
Proof. vm_compute. reflexivity. Qed.

(** ** Worked runs *)

Example normalize_duckduckgo_redirect :
  _normalize_url
    (py "//duckduckgo.com/l/?uddg=https%3A%2F%2Fexample.org%2Fa%3Fb%3D1&rut=0f3c")
  = py "https://example.org/a?b=1".
Proof. vm_compute. reflexivity. Qed.

Example normalize_yahoo_redirect :
  _normalize_url
    (py "https://r.search.yahoo.com/_ylt=Awr/RV=2/RE=17/RO=10/RU=https%3a%2f%2fexample.org%2f/RK=2/RS=abc-")
  = py "https://example.org/".
Proof. vm_compute. reflexivity. Qed.

(** The second query completes first: the requests go out in that order,
    the records come back in the order of the queries. *)
Example bulk_search_reversed_completion :
  let run := bulk_search (py "yahoo") [py "x"; py "y"] 1 false
               (Demo.world [1; 0]%nat) in
  run.1 = inr [VDict (mkSearchRecord (py "x") [py "ftp://files.test/"] None);
               VDict (mkSearchRecord (py "y") [py "ftp://files.test/"] None)]
  /\ requests run.2 = [py "https://search.yahoo.com/search?q=y&n=1";
                       py "https://search.yahoo.com/search?q=x&n=1"].
Proof. vm_compute. split; reflexivity. Qed.

(** A failing query is reported in its record and printed. *)
Example bulk_search_absorbs_failure :
  let run := bulk_search (py "duckduckgo") [py "x"] 1 false (Demo.world []) in
  run.1 = inr [VDict (mkSearchRecord (py "x") [] (Some (py "connection failed")))]
  /\ stdout run.2 = [SearchErrorLine (py "x") (CollabError (py "connection failed"))].
Proof. vm_compute. split; reflexivity. Qed.

(** The pipeline on one query: every URL fetched, cleaned text ranked by
    length. *)
Example pipeline_run :
  (auto_search_and_extract (py "google") [py "x"] 3 true (Demo.world [])).1
  = inr [mkExtractionRecord (VStr (py "http://a.test/")) (py "aaaa");
         mkExtractionRecord (VStr (py "http://c.test/")) (py "cccc");
         mkExtractionRecord (VStr (py "http://b.test/")) (py "bb")].
Proof. vm_compute. reflexivity. Qed.

(** ** Strings: prefixes, occurrences and splits *)

Section StringFacts.

Implicit Types (s sub sep pre a b t : pystr).

Lemma startswith_iff pre s : startswith pre s = true <-> exists t, s = pre ++ t.
Proof.
  revert s. induction pre as [|c pre IH]; intros s.
  - split; [by exists s|done].
  - destruct s as [|d s]; cbn [startswith].
    + split; [done|by intros [t ?]].
    + case_decide as Hcd.
      * subst. rewrite IH. split; intros [t Ht]; exists t.
        -- by rewrite Ht.
        -- by injection Ht.
      * split; [done|]. intros [t Ht]. cbn in Ht. congruence.
Qed.

Lemma startswith_app pre t : startswith pre (pre ++ t) = true.
Proof. apply startswith_iff. by exists t. Qed.

Lemma contains_iff sub s : contains sub s = true <-> exists a b, s = a ++ sub ++ b.
Proof.
  induction s as [|c s IH]; cbn [contains].
  - rewrite orb_false_r, startswith_iff. split.
    + intros [t Ht]. by exists [], t.
    + intros (a & b & Hab). destruct a; [by exists b|discriminate].
  - rewrite orb_true_iff, startswith_iff, IH. split.
    + intros [[t Ht]|(a & b & Hab)]; [by exists [], t|].
      exists (c :: a), b. by rewrite Hab.
    + intros (a & b & Hab). destruct a as [|c' a]; [left; by exists b|right].
      cbn in Hab. exists a, b. congruence.
Qed.

Lemma contains_app_mid sub a b : contains sub (a ++ sub ++ b) = true.
Proof. apply contains_iff. by exists a, b. Qed.

(** A string that holds a longer marker holds its beginning. *)
Lemma contains_prefix sub more s :
  contains (sub ++ more) s = true -> contains sub s = true.
Proof.
  rewrite !contains_iff. intros (a & b & ->). exists a, (more ++ b).
  by rewrite <- !app_assoc.
Qed.

Lemma str_find_contains sub s : contains sub s = true -> is_Some (str_find sub s).
Proof.
  induction s as [|c s IH]; cbn [contains str_find]; intros Hc.
  - rewrite orb_false_r in Hc. by rewrite Hc.
  - destruct (startswith sub (c :: s)); [done|].
    cbn in Hc. destruct (IH Hc) as [i ->]. done.
Qed.

Lemma str_find_lt sub s i : str_find sub s = Some i -> (i + length sub <= length s)%nat.
Proof.
  revert i. induction s as [|c s IH]; intros i; cbn [str_find].
  - destruct (startswith sub []) eqn:Hs; [|done].
    apply startswith_iff in Hs as [t Ht]. intros; simplify_eq.
    apply (f_equal length) in Ht. rewrite length_app in Ht. cbn in *. lia.
  - destruct (startswith sub (c :: s)) eqn:Hs.
    + apply startswith_iff in Hs as [t Ht]. intros; simplify_eq.
      rewrite Ht, length_app. lia.
    + destruct (str_find sub s) as [j|]; [|done]. cbn. intros; simplify_eq.
      specialize (IH j eq_refl). cbn. lia.
Qed.

(** [split(sep, 1)] cuts at the first occurrence of [sep]. *)
Lemma split1_find sep s i :
  str_find sep s = Some i ->
  split1 sep s = [take i s; drop (i + length sep) s].
Proof.
  revert i. induction s as [|c s IH]; intros i; cbn [str_find split1].
  - destruct (startswith sep []); [|done]. intros; by simplify_eq.
  - destruct (startswith sep (c :: s)); [intros; by simplify_eq|].
    destruct (str_find sep s) as [j|]; [|done]. cbn. intros; simplify_eq.
    by rewrite (IH j eq_refl).
Qed.

Lemma split1_absent sep s : contains sep s = false -> split1 sep s = [s].
Proof.
  induction s as [|c s IH]; cbn [contains split1]; intros Hc;
    apply orb_false_iff in Hc as [-> Hc]; [done|].
  by rewrite (IH Hc).
Qed.

Lemma take_find_app sep pre t :
  str_find sep (pre ++ sep ++ t) = Some (length pre) ->
  split1 sep (pre ++ sep ++ t) = [pre; t].
Proof.
  intros Hf. rewrite (split1_find _ _ _ Hf).
  rewrite take_app_length. f_equal. f_equal.
  rewrite drop_app_ge by lia.
  replace (length pre + length sep - length pre)%nat with (length sep) by lia.
  by rewrite drop_app_length.
Qed.

End StringFacts.

(** ** URL normalisation, continued *)

(** Under each guard of [_normalize_url] the split it indexes at [1] has
    that part: the marker tested contains the separator split on. *)
Theorem redirect_split_in_range (sep url : pystr) :
  sep = py "uddg=" \/ sep = py "/RU=" ->
  contains (sep ++ py "http") url = true ->
  exists a b, split1 sep url = [a; b] /\ url = a ++ sep ++ b.
Proof.
  intros _ Hc. apply contains_prefix in Hc.
  destruct (str_find_contains _ _ Hc) as [i Hi].
  exists (take i url), (drop (i + length sep) url).
  split; [by apply split1_find|].
  pose proof (str_find_lt _ _ _ Hi) as Hlen.
  assert (startswith sep (drop i url) = true) as Hs.
  { clear Hc Hlen. revert i Hi. induction url as [|c url IH]; intros i; cbn [str_find].
    - destruct (startswith sep []) eqn:Hs; [|done]. intros; by simplify_eq.
    - destruct (startswith sep (c :: url)) eqn:Hs; [intros; by simplify_eq|].
      destruct (str_find sep url) as [j|]; [|done]. cbn. intros; simplify_eq.
      by apply IH. }
  apply startswith_iff in Hs as [t Ht].
  rewrite <- (take_drop i url) at 1. rewrite Ht. f_equal. f_equal.
  rewrite <- drop_drop, Ht. by rewrite drop_app_length.
Qed.

Lemma redirect_split_in_range_witness :
  exists a b,
    split1 (py "/RU=") (py "https://r.test/x/RU=http://a.test//RK=2/RS=z")
    = [a; b]
    /\ py "https://r.test/x/RU=http://a.test//RK=2/RS=z" = a ++ py "/RU=" ++ b.
Proof.
  apply redirect_split_in_range; [by right|].
  vm_compute. reflexivity.
Defined.

(** A DuckDuckGo redirect is unwrapped: the link [pre uddg=target
    &rut=rest], with the first [uddg=] and the first [&rut=] where shown
    and an http target, normalises to the decoded target. *)
Theorem normalize_url_duckduckgo (pre target rest : pystr) :
  str_find (py "uddg=") (pre ++ py "uddg=" ++ target ++ py "&rut=" ++ rest)
    = Some (length pre) ->
  str_find (py "&rut=") (target ++ py "&rut=" ++ rest) = Some (length target) ->
  startswith (py "http") target = true ->
  contains (py "/RU=http") target = false ->
  _normalize_url (pre ++ py "uddg=" ++ target ++ py "&rut=" ++ rest)
  = unquote (replace_char 32 43 target).
Proof.
  intros Hu Hr Hh Hy. unfold _normalize_url.
  assert (contains (py "uddg=http")
            (pre ++ py "uddg=" ++ target ++ py "&rut=" ++ rest) = true) as ->.
  { apply startswith_iff in Hh as [t ->].
    change (py "uddg=http") with (py "uddg=" ++ py "http").
    apply contains_iff. exists pre, (t ++ py "&rut=" ++ rest).
    by rewrite <- !app_assoc. }
  rewrite (take_find_app _ _ _ Hu). unfold item; cbn [lookup list_lookup default from_option id].
  rewrite contains_app_mid.
  rewrite (take_find_app _ _ _ Hr). unfold item; cbn [lookup list_lookup default from_option id].
  rewrite Hy.
  apply startswith_iff in Hh as [t ->]. reflexivity.
Qed.

Lemma normalize_url_duckduckgo_witness :
  _normalize_url
    (py "//duckduckgo.com/l/?" ++ py "uddg=" ++ py "https%3A%2F%2Fa.test%2Fx%20y"
     ++ py "&rut=" ++ py "0f3c")
  = unquote (replace_char 32 43 (py "https%3A%2F%2Fa.test%2Fx%20y")).
Proof.
  apply normalize_url_duckduckgo; vm_compute; reflexivity.
Defined.

(** A Yahoo redirect is unwrapped: the link [pre /RU=target /RK=2/RS=sig],
    free of the DuckDuckGo marker, with the first [/RU=] and the first
    [/RK=2/RS=] where shown and an http target, normalises to the decoded
    target. *)
Theorem normalize_url_yahoo (pre target sig : pystr) :
  contains (py "uddg=http") (pre ++ py "/RU=" ++ target ++ py "/RK=2/RS=" ++ sig)
    = false ->
  str_find (py "/RU=") (pre ++ py "/RU=" ++ target ++ py "/RK=2/RS=" ++ sig)
    = Some (length pre) ->
  str_find (py "/RK=2/RS=") (target ++ py "/RK=2/RS=" ++ sig)
    = Some (length target) ->
  startswith (py "http") target = true ->
  _normalize_url (pre ++ py "/RU=" ++ target ++ py "/RK=2/RS=" ++ sig)
  = unquote (replace_char 32 43 target).
Proof.
  intros Hd Hu Hk Hh. unfold _normalize_url. rewrite Hd.
  assert (contains (py "/RU=http")
            (pre ++ py "/RU=" ++ target ++ py "/RK=2/RS=" ++ sig) = true) as ->.
  { apply startswith_iff in Hh as [t ->].
    change (py "/RU=http") with (py "/RU=" ++ py "http").
    apply contains_iff. exists pre, (t ++ py "/RK=2/RS=" ++ sig).
    by rewrite <- !app_assoc. }
  rewrite (take_find_app _ _ _ Hu). unfold item; cbn [lookup list_lookup default from_option id].
  assert (contains (py "/RK=2/RS") (target ++ py "/RK=2/RS=" ++ sig) = true) as ->.
  { change (py "/RK=2/RS=") with (py "/RK=2/RS" ++ py "=").
    apply contains_iff. exists target, (py "=" ++ sig). by rewrite <- !app_assoc. }
  rewrite (take_find_app _ _ _ Hk). unfold item; cbn [lookup list_lookup default from_option id].
  apply startswith_iff in Hh as [t ->]. reflexivity.
Qed.

Lemma normalize_url_yahoo_witness :
  _normalize_url
    (py "https://r.search.yahoo.com/_ylt=A/RV=2/RE=1/RO=10" ++ py "/RU="
     ++ py "https%3a%2f%2fa.test%2f" ++ py "/RK=2/RS=" ++ py "abc-")
  = unquote (replace_char 32 43 (py "https%3a%2f%2fa.test%2f")).
Proof.
  apply normalize_url_yahoo; vm_compute; reflexivity.
Defined.

Lemma percent_replace_char (s : pystr) :
  percent ∉ s -> percent ∉ replace_char 32 43 s.
Proof.
  unfold replace_char. intros Hs (c & Hc & Hin)%list_elem_of_fmap.
  case_decide; [by vm_compute in Hc|]. by subst.
Qed.

(** A link with no redirect marker and no percent sign only has its
    spaces turned into [+]. *)
Theorem normalize_url_unwrapped (url : pystr) :
  contains (py "uddg=http") url = false ->
  contains (py "/RU=http") url = false ->
  percent ∉ url ->
  _normalize_url url = replace_char 32 43 url
  /\ (32 ∉ _normalize_url url)
  /\ length (_normalize_url url) = length url.
Proof.
  intros Hd Hy Hp.
  assert (_normalize_url url = replace_char 32 43 url) as ->.
  { unfold _normalize_url. rewrite Hd, Hy. destruct url as [|c url]; [done|].
    cbn [truthy]. by apply unquote_no_percent, percent_replace_char. }
  split; [done|]. split.
  - unfold replace_char. intros (c & Hc & _)%list_elem_of_fmap.
    case_decide; [by vm_compute in Hc|]. by subst.
  - unfold replace_char. by rewrite length_fmap.
Qed.

Lemma normalize_url_unwrapped_witness :
  _normalize_url (py "http://a.test/x y") = replace_char 32 43 (py "http://a.test/x y")
  /\ (32 ∉ _normalize_url (py "http://a.test/x y"))
  /\ length (_normalize_url (py "http://a.test/x y")) = length (py "http://a.test/x y").
Proof.
  apply normalize_url_unwrapped; [vm_compute; reflexivity..|].
  vm_compute. intros Hin.
  repeat (apply elem_of_cons in Hin as [Hin|Hin]; [discriminate|]).
  by apply elem_of_nil in Hin.
Defined.

(** ** Parsers and search, continued *)

(** No parser returns an empty URL. *)
Theorem parse_no_empty_url (p : provider) (tree : element) :
  Forall (fun u => u <> []) (parse p tree).
Proof.
  apply Forall_forall. intros u Hu.
  rewrite parse_first_seen, elem_of_first_seen in Hu. unfold anchors in Hu.
  apply list_elem_of_omap in Hu as (e & _ & He).
  unfold anchor_of in He. destruct (normalized _) as [v|]; [|done].
  destruct (truthy v) eqn:Hv; [|done].
  destruct (_ : bool) in He; cbn in He; [|done]. simplify_eq.
  by destruct u.
Qed.

Lemma google_bing_start_with_http_witness :
  Forall (fun u => startswith (py "http") u = true) (parse Bing Demo.bing_page).
Proof. apply google_bing_start_with_http. by right. Defined.

(** Whatever the provider, a search that returns lists no URL twice. *)
Theorem search_distinct `{Collab} (provider q : pystr) (k : Z) (w : World)
    (l : list pystr) (w' : World) :
  search provider q k w = (inr l, w') -> NoDup l.
Proof. apply search_body_NoDup. Qed.

Lemma search_distinct_witness :
  NoDup [py "http://a.test/"; py "http://b.test/"; py "http://c.test/"].
Proof.
  apply (search_distinct (py "google") (py "q") 5 (Demo.world []) _
           (search (py "google") (py "q") 5 (Demo.world [])).2).
  vm_compute. reflexivity.
Defined.


(** ** Auto mode, continued *)

Lemma NoDup_replace_middle {A} (t d : list A) (x y : A) :
  NoDup (t ++ x :: d) -> y ∉ t ++ x :: d ->
  NoDup (t ++ y :: d) /\ x ∉ t ++ y :: d.
Proof.
  rewrite !NoDup_app, !NoDup_cons, !not_elem_of_app, !not_elem_of_cons.
  intros (Ht & Htd & Hx & Hd) (Hyt & Hyx & Hyd). repeat split; try done.
  - intros z Hz. rewrite not_elem_of_cons. split; [by intros ->|].
    specialize (Htd z Hz). by apply not_elem_of_cons in Htd as [_ ?].
  - intros Hxt. specialize (Htd x Hxt). apply Htd. by left.
Qed.

Section SampleFacts.
Context `{Collab}.

(** The pool selection draws [k] different items of the first [n]. *)
Lemma sample_pool_spec {A} (k n : nat) (pool : list A) e l e' :
  (k <= n)%nat -> (n <= length pool)%nat -> NoDup (take n pool) ->
  sample_pool k n pool e = (l, e') ->
  length l = k /\ NoDup l /\ forall x, x ∈ l -> x ∈ take n pool.
Proof.
  revert n pool e l e'. induction k as [|k IH]; intros n pool e l e' Hkn Hn Hnd Hs.
  { cbn in Hs. simplify_eq. repeat split; [constructor|].
    intros x Hx. by apply elem_of_nil in Hx. }
  cbn [sample_pool] in Hs. destruct (randbelow n e) as [j e1]. cbv zeta in Hs.
  destruct n as [|n]; [lia|].
  assert (j mod S n < S n)%nat as Hj by (apply Nat.mod_upper_bound; lia).
  set (i := (j mod S n)%nat) in *.
  replace (S n - 1)%nat with n in Hs by lia.
  destruct (lookup_lt_is_Some_2 pool i ltac:(lia)) as [x Hx].
  destruct (lookup_lt_is_Some_2 pool n ltac:(lia)) as [last Hlast].
  rewrite Hx, Hlast in Hs.
  destruct (sample_pool k n (<[i:=last]> pool) e1) as [rest e2] eqn:Hrest.
  simplify_eq.
  rewrite (take_S_r _ _ _ Hlast) in Hnd.
  assert (NoDup (take n (<[i:=last]> pool))
          /\ (x ∉ take n (<[i:=last]> pool))
          /\ forall y, y ∈ take n (<[i:=last]> pool) -> y ∈ take (S n) pool)
    as (Hnd' & Hx' & Hsub).
  { rewrite (take_S_r _ _ _ Hlast).
    destruct (decide (i = n)) as [->|Hne].
    - rewrite take_insert_ge by lia. simplify_eq.
      apply NoDup_app in Hnd as (Hnd & Hdisj & _). repeat split; [done| |].
      + intros Hin. apply (Hdisj _ Hin). by left.
      + intros y Hy. apply elem_of_app. by left.
    - rewrite take_insert_lt by lia.
      assert (take n pool !! i = Some x) as Hxi
        by (rewrite lookup_take_lt by lia; done).
      assert (i < length (take n pool))%nat as Hil by (by eapply lookup_lt_Some).
      rewrite insert_take_drop by done.
      pose proof (take_drop_middle _ _ _ Hxi) as Hmid.
      remember (take n pool) as tn eqn:Htn.
      remember (take i tn) as t0 eqn:Ht0. remember (drop (S i) tn) as d0 eqn:Hd0.
      clear Htn Ht0 Hd0 Hxi Hil. subst tn.
      apply NoDup_app in Hnd as (Hnd & Hdisj & _).
      destruct (NoDup_replace_middle _ _ x last Hnd) as [Hnd2 Hx2].
      { intros Hin. apply (Hdisj _ Hin). by left. }
      repeat split; [done|done|].
      intros y. rewrite !elem_of_app, !elem_of_cons. tauto. }
  assert (k <= n)%nat as Hkn' by lia.
  assert (n <= length (<[i:=last]> pool))%nat as Hn'
    by (rewrite length_insert; lia).
  destruct (IH n (<[i:=last]> pool) e1 rest e' Hkn' Hn' Hnd' Hrest)
    as (Hlen & Hndr & Hin).
  split; [cbn; by rewrite Hlen|]. split.
  - constructor; [|done]. intros Hxr. by apply Hx', Hin.
  - intros y [->|Hy]%elem_of_cons.
    + apply (list_elem_of_lookup_2 _ i). by rewrite lookup_take_lt by lia.
    + by apply Hsub, Hin.
Qed.

End SampleFacts.

Lemma random_sample_engines `{Collab} (w : World) :
  exists a b w',
    random_sample engines 2 w = (inr [a; b], w')
    /\ a <> b /\ a ∈ engines /\ b ∈ engines.
Proof.
  unfold random_sample. rewrite decide_True by (cbn; lia).
  unfold lift_env.
  destruct (sample_pool 2 (length engines) engines (env w)) as [l e] eqn:Hs.
  apply sample_pool_spec in Hs as (Hlen & Hnd & Hin); [|cbn; lia|done|].
  2:{ rewrite firstn_all. apply (bool_decide_unpack _). vm_compute. exact I. }
  rewrite firstn_all in Hin.
  destruct l as [|a [|b [|]]]; try discriminate.
  exists a, b, (set_env e w). split; [done|].
  apply NoDup_cons in Hnd as [Hab _].
  split; [|split; apply Hin; set_solver].
  intros ->. apply Hab. by left.
Qed.

(** Auto mode always draws two different engines of the four. *)
Theorem auto_chooses_two_engines `{Collab} (w : World) :
  exists a b w',
    random_sample engines 2 w = (inr [a; b], w')
    /\ a <> b /\ a ∈ engines /\ b ∈ engines.
Proof. apply random_sample_engines. Qed.

Lemma elem_of_extend_results (futures : list (exn + list pystr))
    (acc : list pystr) (u : pystr) :
  u ∈ foldl extend_result acc futures ->
  u ∈ acc \/ exists found, inr found ∈ futures /\ u ∈ found.
Proof.
  revert acc. induction futures as [|r futures IH]; intros acc Hu; [by left|].
  cbn [foldl] in Hu. apply IH in Hu as [Hu|(found & Hin & Hu)].
  - destruct r as [e|found]; cbn in Hu; [by left|].
    apply elem_of_app in Hu as [Hu|Hu]; [by left|right].
    exists found. split; [by left|done].
  - right. exists found. split; [by right|done].
Qed.

(** Auto mode never raises, whatever its engines do, and every URL it
    returns was returned by the search of one of the four engines. *)
Theorem auto_search_total_and_sound `{Collab} (q : pystr) (k : Z) (w : World) :
  exists l w',
    search (py "auto") q k w = (inr l, w')
    /\ forall u, u ∈ l ->
         exists eng found,
           eng ∈ engines /\ outcome_of (search eng q k) (inr found) /\ u ∈ found.
Proof.
  destruct (random_sample_engines w) as (a & b & w1 & Hsample & _ & Ha & Hb).
  rewrite search_auto_unfold, (bind_inr _ _ _ _ _ Hsample).
  cbn [ThreadPoolExecutor Z.leb Z.compare]. unfold bind at 1, ret at 1.
  change (Z.to_nat 2) with 2%nat.
  destruct (as_completed_spec 2 ((fun eng => search_chosen eng q k) <$> [a; b]) w1)
    as (futures & w' & order & Hrun & _ & Hall); [lia|].
  rewrite (bind_inr _ _ _ _ _ Hrun). unfold ret.
  eexists _, _. split; [reflexivity|]. intros u Hu.
  pose proof (elem_of_sublist _ _ _ Hu (slice_to_sublist _ _)) as Hu'.
  rewrite dict_fromkeys_first_seen, elem_of_first_seen in Hu'.
  apply elem_of_extend_results in Hu' as [Hnil|(found & Hin & Hfound)];
    [by apply elem_of_nil in Hnil|].
  apply list_elem_of_lookup_1 in Hin as [i Hi].
  destruct (Forall2_lookup_r _ _ _ _ _ Hall Hi) as (j & _ & t & Ht & Ho).
  apply list_lookup_fmap_Some in Ht as (eng & -> & Heng).
  apply list_elem_of_lookup_2 in Heng.
  assert (eng ∈ engines) as Hmem.
  { apply elem_of_cons in Heng as [->|Heng]; [done|].
    by apply list_elem_of_singleton in Heng as ->. }
  exists eng, found. rewrite <- search_chosen_engines by done. done.
Qed.

(** ** Bulk search, continued *)

Section BulkSearchMore.
Context `{Collab}.

(** What a guarded search puts in its record. *)
Lemma search_with_error_handling_record (provider q : pystr) (k : Z) (r : SearchRecord) :
  outcome_of (_search_with_error_handling provider q k) (inr r) ->
  query r = q
  /\ match error r with
     | None => outcome_of (search provider q k) (inr (urls r))
     | Some msg =>
         urls r = []
         /\ exists e, outcome_of (search provider q k) (inl e) /\ msg = exn_str e
     end.
Proof.
  intros (w1 & w2 & Hrun).
  unfold _search_with_error_handling, try_except, bind, ret, print in Hrun.
  destruct (search provider q k w1) as [[e|l] w3] eqn:Hs; simplify_eq; cbn.
  - split; [done|]. split; [done|]. exists e. split; [by exists w1, w3|done].
  - split; [done|]. by exists w1, w2.
Qed.

Lemma foldl_extend_urls (records : list SearchRecord) (acc : list pystr) :
  foldl extend_urls acc records = acc ++ concat (urls <$> records).
Proof.
  revert acc. induction records as [|r records IH]; intros acc; cbn.
  - by rewrite app_nil_r.
  - rewrite IH. unfold extend_urls. destruct (urls r); cbn; [done|].
    by rewrite <- app_assoc.
Qed.

Lemma records_length_bound (provider : pystr) (queries : list pystr) (k : Z)
    (records : list SearchRecord) :
  (0 <= k)%Z ->
  Forall2 (fun q r =>
             query r = q
             /\ outcome_of (_search_with_error_handling provider q k) (inr r))
    queries records ->
  (Z.of_nat (length (concat (urls <$> records))) <= Z.of_nat (length queries) * k)%Z.
Proof.
  intros Hk. induction 1 as [|q r queries records [_ Ho] _ IH]; [cbn; lia|].
  cbn [fmap list_fmap concat length]. rewrite length_app.
  assert (Z.of_nat (length (urls r)) <= k)%Z.
  { apply search_with_error_handling_record in Ho as [_ Ho].
    destruct (error r).
    - destruct Ho as [-> _]. cbn. lia.
    - destruct Ho as (w1 & w2 & Hs). by eapply search_body_cap. }
  rewrite Nat2Z.inj_add, Nat2Z.inj_succ. lia.
Qed.

End BulkSearchMore.

(** Each record of a bulk search reports either the URLs that the search
    of its query returned, with no error, or the message of the exception
    that search raised, with no URL. *)
Theorem bulk_search_record_contents `{Collab} (provider : pystr)
    (queries : list pystr) (k : Z) (w : World) :
  exists records w',
    bulk_search provider queries k false w = (inr (VDict <$> records), w')
    /\ Forall2 (fun q r =>
         match error r with
         | None => outcome_of (search provider q k) (inr (urls r))
         | Some msg =>
             urls r = []
             /\ exists e, outcome_of (search provider q k) (inl e)
                          /\ msg = exn_str e
         end) queries records.
Proof.
  destruct (bulk_search_records provider queries k false w)
    as (records & w' & Hrun & Hall).
  exists records, w'. split; [done|].
  eapply Forall2_impl; [exact Hall|]. intros q r [_ Ho].
  by apply search_with_error_handling_record in Ho as [_ ?].
Qed.

(** With [combined] set, a bulk search returns the URL lists of its
    records joined in the order of the queries; a URL found for two
    queries appears twice. *)
Theorem bulk_search_combined `{Collab} (provider : pystr)
    (queries : list pystr) (k : Z) (w : World) :
  exists records w',
    bulk_search provider queries k true w
    = (inr (VStr <$> concat (urls <$> records)), w')
    /\ Forall2 (fun q r =>
                  query r = q
                  /\ outcome_of (_search_with_error_handling provider q k) (inr r))
         queries records.
Proof.
  destruct (bulk_search_records provider queries k true w)
    as (records & w' & Hrun & Hall).
  exists records, w'. split; [|done].
  rewrite Hrun. by rewrite foldl_extend_urls.
Qed.

(** With [combined] set and [0 <= k], a bulk search returns at most [k]
    URLs per query. *)
Theorem bulk_search_combined_length `{Collab} (provider : pystr)
    (queries : list pystr) (k : Z) (w : World) (found : list pyval) (w' : World) :
  (0 <= k)%Z ->
  bulk_search provider queries k true w = (inr found, w') ->
  (Z.of_nat (length found) <= Z.of_nat (length queries) * k)%Z.
Proof.
  intros Hk Hrun.
  destruct (bulk_search_records provider queries k true w)
    as (records & w'' & Hrun' & Hall).
  rewrite Hrun in Hrun'. simplify_eq.
  rewrite length_fmap, foldl_extend_urls.
  by eapply records_length_bound.
Qed.

Lemma bulk_search_combined_length_witness :
  (Z.of_nat (length (VStr <$> [py "http://a.test/"; py "http://b.test/";
                               py "http://a.test/"; py "http://b.test/"]))
   <= Z.of_nat (length [py "x"; py "y"]) * 2)%Z.
Proof.
  apply (bulk_search_combined_length (py "google") [py "x"; py "y"] 2
           (Demo.world []) _
           (bulk_search (py "google") [py "x"; py "y"] 2 true (Demo.world [])).2).
  - lia.
  - vm_compute. reflexivity.
Defined.

(** Without a query a bulk search returns the empty list and leaves the
    world as it was. *)
Lemma bulk_search_no_query `{Collab} (provider : pystr) (k : Z)
    (combined : bool) (w : World) :
  bulk_search provider [] k combined w = (inr [], w).
Proof. by destruct combined. Qed.

(** ** Cleaned text *)

Section CleanFacts.

Implicit Types (s : pystr) (b : bool).

(** The newline pass changes nothing that the whitespace pass would not
    change anyway. *)
Lemma sub_runs_newline_space b b' s :
  (b = true -> b' = true) ->
  Regex.sub_runs Regex.is_space 32 b' (Regex.sub_runs Regex.is_newline 32 b s)
  = Regex.sub_runs Regex.is_space 32 b' s.
Proof.
  revert b b'. induction s as [|c s IH]; intros b b' Hb; [done|].
  cbn [Regex.sub_runs].
  destruct (Regex.is_newline c) eqn:Hn.
  - assert (Regex.is_space c = true) as Hs
      by (apply N.eqb_eq in Hn; by subst).
    rewrite Hs. destruct b.
    + rewrite (Hb eq_refl). by apply IH.
    + cbn [Regex.sub_runs]. change (Regex.is_space 32) with true. cbn match.
      destruct b'; by rewrite IH.
  - cbn [Regex.sub_runs]. destruct (Regex.is_space c), b'; by rewrite IH.
Qed.

(** After a pass every matching character is a single [r] between two
    other characters, or at an end. *)
Lemma sub_runs_single (p : N -> bool) (r : N) b s i c :
  p r = true ->
  Regex.sub_runs p r b s !! i = Some c ->
  p c = true ->
  c = r
  /\ Regex.sub_runs p r b s !! S i <> Some r
  /\ (i = O -> b = false).
Proof.
  intros Hr. revert b i. induction s as [|d s IH]; intros b i; [done|].
  cbn [Regex.sub_runs]. destruct (p d) eqn:Hd.
  - destruct b.
    + intros Hi Hc. destruct (IH true i Hi Hc) as (? & ? & Hz).
      repeat split; [done..|]. intros ->. by apply Hz.
    + destruct i as [|i]; cbn [lookup list_lookup].
      * intros ? _. simplify_eq. repeat split.
        change ((c :: Regex.sub_runs p c true s) !! 1%nat)
          with (Regex.sub_runs p c true s !! O).
        intros Hz.
        by destruct (IH true O Hz Hr) as (_ & _ & Hf); specialize (Hf eq_refl).
      * intros Hi Hc.
        change ((r :: Regex.sub_runs p r true s) !! S (S i))
          with (Regex.sub_runs p r true s !! S i).
        destruct (IH true i Hi Hc) as (? & ? & _). by repeat split.
  - destruct i as [|i]; cbn [lookup list_lookup].
    + intros ? Hc. simplify_eq. congruence.
    + intros Hi Hc.
      change ((d :: Regex.sub_runs p r false s) !! S (S i))
        with (Regex.sub_runs p r false s !! S i).
      destruct (IH false i Hi Hc) as (? & ? & _). by repeat split.
Qed.

End CleanFacts.

(** In [clean] mode the first substitution is subsumed by the second:
    collapsing newline runs and then whitespace runs gives what collapsing
    whitespace runs alone gives. *)
Theorem clean_newline_pass_redundant (text : pystr) :
  Regex.sub_runs Regex.is_space 32 false
    (Regex.sub_runs Regex.is_newline 32 false text)
  = Regex.sub_runs Regex.is_space 32 false text.
Proof. by apply sub_runs_newline_space. Qed.

(** ** Extraction, continued *)

Section ExtractionMore.
Context `{Collab}.

(** The text a successful extraction holds. *)
Lemma fetch_site_from_url_Some (u : pyval) (type : pystr) (max_text : option Z)
    w r w' :
  fetch_site_from_url u type max_text w = (inr (Some r), w') ->
  exists body text,
    fetch_get_val u w = (inr body, w')
    /\ (if decide (type = py "markdown") then convert_to_markdown body
        else convert_to_plain_text body) = inr text
    /\ url r = u
    /\ content r =
       let cleaned :=
         if decide (type = py "clean")
         then Regex.sub_runs Regex.is_space 32 false
                (Regex.sub_runs Regex.is_newline 32 false text)
         else text in
       match max_text with
       | Some m => if (0 <? m)%Z then slice_to m cleaned else cleaned
       | None => cleaned
       end.
Proof.
  unfold fetch_site_from_url, try_except, bind, lift_result, ret, print.
  destruct (fetch_get_val u w) as [[e|body] w1]; [intros; simplify_eq|].
  destruct (if decide (type = py "markdown") then _ else _) as [e|text] eqn:Hconv;
    [intros; simplify_eq|].
  intros; simplify_eq. by exists body, text.
Qed.

End ExtractionMore.

(** An extraction never raises. It returns a record for the URL asked and
    prints nothing, or returns [None] and prints one line naming the URL. *)
Theorem extraction_absorbs_failure `{Collab} (u : pyval) (type : pystr)
    (max_text : option Z) (w : World) :
  exists result w',
    fetch_site_from_url u type max_text w = (inr result, w')
    /\ match result with
       | Some r => url r = u /\ stdout w' = stdout w
       | None => exists e, stdout w' = stdout w ++ [FetchErrorLine u e]
       end.
Proof.
  unfold fetch_site_from_url, try_except, bind, lift_result, ret, print.
  assert (stdout (fetch_get_val u w).2 = stdout w) as Hout.
  { destruct u; cbn; [|done]. unfold fetch_get. by destruct (http_get _ _). }
  destruct (fetch_get_val u w) as [[e|body] w1]; cbn in Hout.
  { eexists _, _. split; [done|]. exists e. cbn. by rewrite Hout. }
  destruct (if decide (type = py "markdown") then _ else _) as [e|text].
  { eexists _, _. split; [done|]. exists e. cbn. by rewrite Hout. }
  eexists _, _. split; [done|]. by split.
Qed.

(** A positive [max_text] cuts the content to its first [max_text]
    characters: the record holds the prefix of that length of what the
    extraction without a limit holds. *)
Theorem extraction_truncates `{Collab} (u : pyval) (type : pystr) (m : Z)
    (w : World) (r : ExtractionRecord) (w' : World) :
  (0 < m)%Z ->
  fetch_site_from_url u type (Some m) w = (inr (Some r), w') ->
  (Z.of_nat (length (content r)) <= m)%Z
  /\ exists full,
       fetch_site_from_url u type None w = (inr (Some full), w')
       /\ content r = take (Z.to_nat m) (content full).
Proof.
  intros Hm Hrun.
  apply fetch_site_from_url_Some in Hrun as (body & text & Hget & Hconv & Hu & Hc).
  cbv zeta in Hc. rewrite (proj2 (Z.ltb_lt 0 m) Hm) in Hc.
  unfold slice_to in Hc. rewrite (proj2 (Z.leb_le 0 m)) in Hc by lia.
  split; [rewrite Hc, length_take; lia|].
  eexists (mkExtractionRecord u _). split; [|exact Hc].
  unfold fetch_site_from_url, try_except, bind, lift_result, ret.
  by rewrite Hget, Hconv.
Qed.

Lemma extraction_truncates_witness :
  (Z.of_nat (length (py "aa")) <= 2)%Z
  /\ exists full,
       fetch_site_from_url (VStr (py "http://a.test/")) (py "markdown") None
         (Demo.world [])
       = (inr (Some full),
          (fetch_site_from_url (VStr (py "http://a.test/")) (py "markdown")
             (Some 2%Z) (Demo.world [])).2)
       /\ py "aa" = take (Z.to_nat 2) (content full).
Proof.
  apply (extraction_truncates (VStr (py "http://a.test/")) (py "markdown") 2
           (Demo.world [])
           (mkExtractionRecord (VStr (py "http://a.test/")) (py "aa"))).
  - lia.
  - vm_compute. reflexivity.
Defined.

(** A [max_text] of zero or below is ignored: the extraction is the one
    without a limit. *)
Theorem extraction_ignores_nonpositive_limit `{Collab} (u : pyval)
    (type : pystr) (m : Z) (w : World) :
  (m <= 0)%Z ->
  fetch_site_from_url u type (Some m) w = fetch_site_from_url u type None w.
Proof.
  intros Hm. unfold fetch_site_from_url.
  by rewrite (proj2 (Z.ltb_ge 0 m) Hm).
Qed.

Lemma extraction_ignores_nonpositive_limit_witness :
  fetch_site_from_url (VStr (py "http://a.test/")) (py "markdown") (Some (-3)%Z)
    (Demo.world [])
  = fetch_site_from_url (VStr (py "http://a.test/")) (py "markdown") None
      (Demo.world []).
Proof. apply extraction_ignores_nonpositive_limit. lia. Defined.

(** In [clean] mode the content has no whitespace but single spaces: a
    whitespace character in it is a space, and the next character is not
    a space. *)
Theorem clean_content_single_spaced `{Collab} (u : pyval) (max_text : option Z)
    (w : World) (r : ExtractionRecord) (w' : World) (i : nat) (c : N) :
  fetch_site_from_url u (py "clean") max_text w = (inr (Some r), w') ->
  content r !! i = Some c ->
  Regex.is_space c = true ->
  c = 32 /\ content r !! S i <> Some 32.
Proof.
  intros Hrun Hi Hc.
  apply fetch_site_from_url_Some in Hrun as (body & text & _ & _ & _ & Hcont).
  cbv zeta in Hcont. rewrite decide_True in Hcont by reflexivity.
  rewrite sub_runs_newline_space in Hcont by done.
  set (cleaned := Regex.sub_runs Regex.is_space 32 false text) in *.
  assert (exists n, content r = take n cleaned) as [n Hn].
  { rewrite Hcont. destruct max_text as [m|]; [|exists (length cleaned); by rewrite firstn_all].
    destruct (0 <? m)%Z; [|exists (length cleaned); by rewrite firstn_all].
    unfold slice_to. destruct (0 <=? m)%Z; eauto. }
  rewrite Hn in Hi |- *.
  apply lookup_take_Some in Hi as [Hi Hlt].
  destruct (sub_runs_single Regex.is_space 32 false text i c eq_refl Hi Hc)
    as (-> & Hnext & _).
  split; [done|]. intros Hs. apply lookup_take_Some in Hs as [Hs _]. by apply Hnext.
Qed.

Lemma clean_content_single_spaced_witness :
  32 = 32 /\ py "a b" !! 2%nat <> Some 32.
Proof.
  apply (clean_content_single_spaced (H:=Echo.collab)
           (VStr [97; 32; 10; 9; 98]) None Echo.world
           (mkExtractionRecord (VStr [97; 32; 10; 9; 98]) (py "a b"))
           (fetch_site_from_url (H:=Echo.collab) (VStr [97; 32; 10; 9; 98])
              (py "clean") None Echo.world).2 1 32).
  - vm_compute. reflexivity.
  - reflexivity.
  - reflexivity.
Defined.

(** ** Bulk extraction and the pipeline, continued *)

Lemma collect_results_spec (futures : list (exn + option ExtractionRecord))
    (results : list ExtractionRecord) :
  collect_results futures = inr results ->
  (length results <= length futures)%nat
  /\ forall r, r ∈ results -> inr (Some r) ∈ futures.
Proof.
  revert results. induction futures as [|f futures IH]; intros results; cbn.
  - intros; simplify_eq. split; [done|]. intros r Hr. by apply elem_of_nil in Hr.
  - destruct f as [e|result]; [done|].
    destruct (collect_results futures) as [e|rest]; [done|].
    destruct (IH rest eq_refl) as [Hlen Hin].
    intros; simplify_eq. destruct result as [r0|]; cbn.
    + split; [lia|]. intros r [->|Hr]%elem_of_cons; [by left|].
      right. by apply Hin.
    + split; [lia|]. intros r Hr. right. by apply Hin.
Qed.

(** A sorted list is left as it is by the sort. *)
Lemma sorted_desc_sorted_id (l : list ExtractionRecord) :
  StronglySorted longer_first l -> sorted_desc l = l.
Proof.
  induction 1 as [|x l Hl IH Hx]; [done|].
  cbn [sorted_desc foldr]. fold (sorted_desc l). rewrite IH.
  destruct l as [|y l]; [done|]. cbn [insert_desc].
  apply Forall_cons in Hx as [Hxy _]. unfold longer_first in Hxy.
  by rewrite (proj2 (Nat.ltb_ge _ _) Hxy).
Qed.

Section BulkExtractionMore.
Context `{Collab}.

(** Where the records of a bulk extraction come from. *)
Lemma bulk_extraction_records (us : list pyval) (type : pystr)
    (max_text : option Z) w out w' :
  fetch_site_from_url_bulk us type max_text w = (inr out, w') ->
  (length out <= length us)%nat
  /\ Forall (fun r => exists u,
               u ∈ us
               /\ outcome_of (fetch_site_from_url u type max_text) (inr (Some r)))
       out.
Proof.
  unfold fetch_site_from_url_bulk, collect_sites. intros Hrun. inv_run.
  match goal with
  | Hp : ThreadPoolExecutor _ _ = (inr ?mw, ?w1) |- _ =>
      assert (0 < mw)%nat as Hmw;
      [ unfold ThreadPoolExecutor in Hp;
        destruct (Z.of_nat (length us) <=? 0)%Z eqn:Hz; [discriminate|];
        apply Z.leb_gt in Hz; unfold ret in Hp; simplify_eq; lia |]
  end.
  match goal with
  | Ha : as_completed ?mw ?tasks ?w1 = (inr ?futures, _) |- _ =>
      destruct (as_completed_spec mw tasks w1 Hmw)
        as (futures' & w'' & order & Hrun' & Hperm & Hall);
      rewrite Ha in Hrun'; simplify_eq
  end.
  match goal with
  | Hc : collect_results _ = inr _ |- _ =>
      apply collect_results_spec in Hc as [Hlen Hin]
  end.
  assert (length futures' = length us) as Hfl.
  { rewrite <- (Forall2_length _ _ _ Hall), Hperm, length_seq.
    by rewrite length_fmap. }
  split.
  - rewrite (Permutation_length (sorted_desc_perm _)). lia.
  - apply Forall_forall. intros r Hr.
    rewrite (sorted_desc_perm _) in Hr. apply Hin in Hr.
    apply list_elem_of_lookup_1 in Hr as [i Hi].
    destruct (Forall2_lookup_r _ _ _ _ _ Hall Hi) as (j & _ & t & Ht & Ho).
    apply list_lookup_fmap_Some in Ht as (u & -> & Hu).
    exists u. split; [by eapply list_elem_of_lookup_2|done].
Qed.

End BulkExtractionMore.

(** Looking up the positions [k], [k + 1], ... of a list gives its items
    from position [k] on. *)
Lemma omap_lookup_seq {A} (l : list A) (k n : nat) :
  omap (fun i => l !! i) (seq k n) = take n (drop k l).
Proof.
  revert k. induction n as [|n IH]; intros k; [done|].
  cbn [seq omap list_omap]. rewrite IH.
  destruct (l !! k) as [x|] eqn:Hk.
  - by rewrite (drop_S _ _ _ Hk).
  - apply lookup_ge_None in Hk.
    rewrite !drop_ge by lia. by rewrite !take_nil.
Qed.

(** The records collected are records of the futures, in their order:
    one record at most for each future. *)
Lemma collect_results_sublist (keys : list pyval)
    (futures : list (exn + option ExtractionRecord))
    (results : list ExtractionRecord) :
  Forall2 (fun u f => forall r, f = inr (Some r) -> url r = u) keys futures ->
  collect_results futures = inr results ->
  url <$> results `sublist_of` keys.
Proof.
  intros Hall. revert results.
  induction Hall as [|u f keys futures Hu Hall IH]; intros results; cbn.
  - intros; simplify_eq. constructor.
  - destruct f as [e|result]; [done|].
    destruct (collect_results futures) as [e|rest]; [done|].
    intros; simplify_eq. destruct result as [r|]; cbn.
    + rewrite (Hu r eq_refl). by apply sublist_skip, IH.
    + by apply sublist_cons, IH.
Qed.

Section BulkExtractionKeys.
Context `{Collab}.

(** The futures of a bulk extraction, in completion order, belong to the
    URLs given, each URL to one future. *)
Lemma as_completed_keys (us : list pyval) (type : pystr)
    (max_text : option Z) (mw : nat) w futures w' :
  (0 < mw)%nat ->
  as_completed mw ((fun u => fetch_site_from_url u type max_text) <$> us) w
  = (inr futures, w') ->
  exists keys,
    keys ≡ₚ us
    /\ Forall2 (fun u f => forall r, f = inr (Some r) -> url r = u) keys futures.
Proof.
  intros Hmw Hrun.
  destruct (as_completed_spec mw
              ((fun u => fetch_site_from_url u type max_text) <$> us) w Hmw)
    as (futures' & w'' & order & Hrun' & Hperm & Hall).
  rewrite Hrun in Hrun'. simplify_eq.
  exists (omap (fun i => us !! i) order). split.
  - rewrite Hperm, length_fmap, omap_lookup_seq, drop_0.
    by rewrite take_ge.
  - clear Hperm Hrun. induction Hall as [|i f order futures Hi Hall IH]; [constructor|].
    destruct Hi as (t & Ht & w1 & w2 & Ho).
    apply list_lookup_fmap_Some in Ht as (u & -> & Hu).
    cbn [omap list_omap]. rewrite Hu. constructor; [|exact IH].
    intros r ->.
    by apply fetch_site_from_url_Some in Ho as (body & text & _ & _ & Hurl & _).
Qed.

End BulkExtractionKeys.

(** A bulk extraction returns at most one record per URL given: the keys
    of the records returned are, counted with their repetitions, among
    the URLs given. Distinct URLs so get records with distinct keys. *)
Theorem bulk_extraction_answers_given_urls `{Collab} (us : list pyval)
    (type : pystr) (max_text : option Z) (w : World)
    (out : list ExtractionRecord) (w' : World) :
  fetch_site_from_url_bulk us type max_text w = (inr out, w') ->
  url <$> out ⊆+ us
  /\ (NoDup us -> NoDup (url <$> out)).
Proof.
  intros Hrun.
  assert (url <$> out ⊆+ us) as Hsub.
  { unfold fetch_site_from_url_bulk, collect_sites in Hrun. inv_run.
    match goal with
    | Hp : ThreadPoolExecutor _ _ = (inr ?mw, ?w1) |- _ =>
        assert (0 < mw)%nat as Hmw;
        [ unfold ThreadPoolExecutor in Hp;
          destruct (Z.of_nat (length us) <=? 0)%Z eqn:Hz; [discriminate|];
          apply Z.leb_gt in Hz; unfold ret in Hp; simplify_eq; lia |]
    end.
    match goal with
    | Ha : as_completed _ _ _ = (inr _, _) |- _ =>
        apply as_completed_keys in Ha as (keys & Hperm & Hall); [|done]
    end.
    match goal with
    | Hc : collect_results _ = inr _ |- _ =>
        apply (collect_results_sublist keys) in Hc; [|done]
    end.
    rewrite (fmap_Permutation url _ _ (sorted_desc_perm _)), <- Hperm.
    by apply sublist_submseteq. }
  split; [done|]. intros Hnd.
  apply submseteq_Permutation in Hsub as [k Hk].
  rewrite Hk in Hnd. by apply NoDup_app in Hnd as [? _].
Qed.

Lemma bulk_extraction_answers_given_urls_witness :
  let us := [VStr (py "http://a.test/"); VStr (py "http://nowhere.test/");
             VStr (py "http://b.test/")] in
  let out := [mkExtractionRecord (VStr (py "http://a.test/")) (py "aaaa");
              mkExtractionRecord (VStr (py "http://b.test/")) (py "bb")] in
  url <$> out ⊆+ us /\ (NoDup us -> NoDup (url <$> out)).
Proof.
  intros us out.
  apply (bulk_extraction_answers_given_urls us (py "markdown") None
           (Demo.world []) out
           (fetch_site_from_url_bulk us (py "markdown") None (Demo.world [])).2).
  vm_compute. reflexivity.
Defined.

(** The second sort of the pipeline changes nothing: the pipeline is the
    bulk search followed by the bulk extraction, in [clean] mode with
    4096 characters at most. *)
Theorem pipeline_is_search_then_extraction `{Collab} (provider : pystr)
    (queries : list pystr) (k : Z) (combined : bool) (w : World) :
  auto_search_and_extract provider queries k combined w
  = (let* found := bulk_search provider queries k combined in
     fetch_site_from_url_bulk found (py "clean") (Some 4096%Z)) w.
Proof.
  unfold auto_search_and_extract, bind at 1 3.
  destruct (bulk_search provider queries k combined w) as [[e|found] w1]; [done|].
  unfold bind at 1, fetch_site_from_url_bulk at 1 2, bind.
  destruct (collect_sites found (py "clean") (Some 4096%Z) w1) as [[e|l] w2];
    [done|].
  unfold ret. by rewrite sorted_desc_sorted_id by apply sorted_desc_sorted.
Qed.

(** What the pipeline returns is ranked, longest content first, and no
    content has more than 4096 characters. *)
Theorem pipeline_output_ranked_and_bounded `{Collab} (provider : pystr)
    (queries : list pystr) (k : Z) (combined : bool) (w : World)
    (out : list ExtractionRecord) (w' : World) :
  auto_search_and_extract provider queries k combined w = (inr out, w') ->
  StronglySorted longer_first out
  /\ Forall (fun r => (length (content r) <= 4096)%nat) out.
Proof.
  unfold auto_search_and_extract. intros Hrun.
  apply bind_inr_inv in Hrun as (found & w1 & _ & Hrun).
  apply bind_inr_inv in Hrun as (extracted & w2 & Hbulk & Hrun).
  apply ret_inv in Hrun as [<- _]. split; [apply sorted_desc_sorted|].
  apply bulk_extraction_records in Hbulk as [_ Hall].
  apply Forall_forall. intros r Hr. rewrite sorted_desc_perm in Hr.
  rewrite Forall_forall in Hall.
  destruct (Hall r Hr) as (u & _ & w3 & w4 & Ho).
  apply fetch_site_from_url_Some in Ho as (body & text & _ & _ & _ & Hc).
  cbv zeta in Hc. change (0 <? 4096)%Z with true in Hc. cbn match in Hc.
  rewrite Hc. unfold slice_to. change (0 <=? 4096)%Z with true. cbn match.
  rewrite length_take. change (Z.to_nat 4096) with 4096%nat. lia.
Qed.

Lemma pipeline_output_ranked_and_bounded_witness :
  let out := [mkExtractionRecord (VStr (py "http://a.test/")) (py "aaaa");
              mkExtractionRecord (VStr (py "http://c.test/")) (py "cccc");
              mkExtractionRecord (VStr (py "http://b.test/")) (py "bb")] in
  StronglySorted longer_first out
  /\ Forall (fun r => (length (content r) <= 4096)%nat) out.
Proof.
  intros out.
  apply (pipeline_output_ranked_and_bounded (py "google") [py "x"] 3 true
           (Demo.world []) out
           (auto_search_and_extract (py "google") [py "x"] 3 true (Demo.world [])).2).
  vm_compute. reflexivity.
Defined.

(** Without [combined] the pipeline hands records, not URLs, to the
    extraction: every fetch fails on them and, for at least one query,
    the pipeline returns the empty list. *)
Theorem pipeline_uncombined_returns_nothing `{Collab} (provider : pystr)
    (queries : list pystr) (k : Z) (w : World) :
  queries <> [] ->
  exists w', auto_search_and_extract provider queries k false w = (inr [], w').
Proof.
  intros Hq. unfold auto_search_and_extract.
  destruct (bulk_search_records provider queries k false w)
    as (records & w1 & Hrun & Hall).
  rewrite (bind_inr _ _ _ _ _ Hrun).
  assert (VDict <$> records <> []) as Hne.
  { apply Forall2_length in Hall. destruct queries; [done|].
    destruct records; [done|]. done. }
  destruct (fetch_site_from_url_bulk_total (VDict <$> records) (py "clean")
              (Some 4096%Z) w1 Hne) as (out & w2 & Hbulk).
  rewrite (bind_inr _ _ _ _ _ Hbulk). exists w2. unfold ret.
  assert (out = []) as ->; [|done].
  apply bulk_extraction_records in Hbulk as [_ Hout].
  destruct out as [|r out]; [done|]. exfalso.
  apply Forall_cons in Hout as [(u & Hu & w3 & w4 & Ho) _].
  apply list_elem_of_fmap in Hu as (rec & -> & _).
  by apply fetch_site_from_url_Some in Ho as (body & ? & Hget & _).
Qed.

Lemma pipeline_uncombined_returns_nothing_witness :
  exists w',
    auto_search_and_extract (py "google") [py "x"] 3 false (Demo.world [])
    = (inr [], w').
Proof. by apply pipeline_uncombined_returns_nothing. Defined.

(** Given at least one URL, a bulk extraction never raises, whatever
    fails: it returns the records it could collect. *)
Theorem bulk_extraction_total `{Collab} (us : list pyval) (type : pystr)
    (max_text : option Z) (w : World) :
  us <> [] ->
  exists out w', fetch_site_from_url_bulk us type max_text w = (inr out, w').
Proof.
  intros Hus.
  destruct (collect_sites_total us type max_text w Hus) as (l & w' & Hrun).
  exists (sorted_desc l), w'.
  unfold fetch_site_from_url_bulk. by rewrite (bind_inr _ _ _ _ _ Hrun).
Qed.

Lemma bulk_extraction_total_witness :
  exists out w',
    fetch_site_from_url_bulk [VStr (py "http://nowhere.test/")] (py "markdown")
      None (Demo.world [])
    = (inr out, w').
Proof. by apply bulk_extraction_total. Defined.

(** ** The scraper *)

Section DictFacts.
Context {V : Type}.

Implicit Types (d other : dict V) (k : pystr) (v : V).

Lemma dict_get_set_eq k v d : dict_get k (dict_set k v d) = Some v.
Proof.
  induction d as [|[k' v'] d IH]; cbn [dict_set dict_get].
  - by rewrite decide_True.
  - destruct (decide (k' = k)) as [->|Hne]; cbn [dict_get].
    + by rewrite decide_True.
    + by rewrite decide_False.
Qed.

Lemma dict_get_set_ne k k' v d :
  k' <> k -> dict_get k (dict_set k' v d) = dict_get k d.
Proof.
  intros Hne. induction d as [|[k0 v0] d IH]; cbn [dict_set dict_get].
  - by rewrite decide_False.
  - destruct (decide (k0 = k')) as [->|Hne']; cbn [dict_get].
    + by rewrite !decide_False.
    + by rewrite IH.
Qed.

Lemma dict_get_set_is_Some k k' v d :
  is_Some (dict_get k d) -> is_Some (dict_get k (dict_set k' v d)).
Proof.
  destruct (decide (k' = k)) as [->|Hne].
  - by rewrite dict_get_set_eq.
  - by rewrite dict_get_set_ne.
Qed.

Lemma dict_get_update_is_Some k d other :
  is_Some (dict_get k d) -> is_Some (dict_get k (dict_update d other)).
Proof.
  unfold dict_update. revert d.
  induction other as [|[k' v'] other IH]; intros d Hd; [done|].
  cbn [foldl]. by apply IH, dict_get_set_is_Some.
Qed.

Lemma dict_get_update_absent k d other :
  k ∉ other.*1 -> dict_get k (dict_update d other) = dict_get k d.
Proof.
  unfold dict_update. revert d.
  induction other as [|[k' v'] other IH]; intros d Hk; [done|].
  cbn in Hk. apply not_elem_of_cons in Hk as [Hne Hk].
  cbn [foldl]. rewrite IH by done. by apply dict_get_set_ne.
Qed.

End DictFacts.

Section ScraperFacts.
Context `{ScraperLibs}.

(** Whatever the caller passes and whatever is generated, the request
    carries the generated Google referer under the key [referer]. *)
Theorem headers_job_sets_referer (headers : option (dict Scraper.header))
    (url : pystr) (w : World) :
  exists result w',
    Scraper.headers_job headers url w = (inr result, w')
    /\ dict_get (py "referer") result
       = Some (Some (py "https://www.google.com/search?q=" ++ tld_domain url)).
Proof.
  unfold Scraper.headers_job, bind, lift_env, ret.
  destruct (generate_headers (env w)) as [generated e1]. cbv beta iota zeta.
  destruct (generate_headers (env (set_env e1 w))) as [extra e2].
  cbv beta iota zeta.
  eexists _, _. split; [reflexivity|].
  unfold dict_update at 1. cbn [foldl fst snd]. apply dict_get_set_eq.
Qed.

(** No header of the caller is dropped, and a header that is neither
    [User-Agent] nor [referer] nor generated keeps its value. *)
Theorem headers_job_keeps_caller_headers (headers : dict Scraper.header)
    (url : pystr) (w : World) :
  exists result w',
    Scraper.headers_job (Some headers) url w = (inr result, w')
    /\ (forall k, is_Some (dict_get k headers) -> is_Some (dict_get k result))
    /\ (forall k,
          k <> py "User-Agent" -> k <> py "referer" ->
          k ∉ (generate_headers (generate_headers (env w)).2).1.*1 ->
          dict_get k result = dict_get k headers).
Proof.
  unfold Scraper.headers_job, bind, lift_env, ret.
  destruct (generate_headers (env w)) as [generated e1]. cbv beta iota zeta.
  change (env (set_env e1 w)) with e1. cbn [fst snd].
  destruct (generate_headers e1) as [extra e2]. cbv beta iota zeta.
  cbn [fst snd default from_option id].
  eexists _, _. split; [reflexivity|]. split.
  - intros k Hk.
    by apply dict_get_update_is_Some, dict_get_update_is_Some,
      dict_get_set_is_Some.
  - intros k Hua Href Hgen.
    rewrite dict_get_update_absent.
    2:{ cbn. rewrite not_elem_of_cons. split; [done|apply not_elem_of_nil]. }
    rewrite dict_get_update_absent.
    2:{ by rewrite <- list_fmap_compose. }
    by apply dict_get_set_ne.
Qed.

(** The temporary file of a conversion is gone afterwards, whether the
    conversion returned or raised: with a fresh temporary name the files
    are what they were, and the result is the conversion of the content. *)
Theorem convert_to_markdown_cleans_up (content : bytes) (w : World) :
  (temp_name (env w)).1 <> [] ->
  files w !! (temp_name (env w)).1 = None ->
  (Scraper.convert_to_markdown content w).1 = convert_local content
  /\ files (Scraper.convert_to_markdown content w).2 = files w.
Proof.
  intros Hname Hfresh. unfold Scraper.convert_to_markdown.
  destruct (temp_name (env w)) as [temp_path e]. cbn in *.
  rewrite lookup_insert_eq. split; [done|].
  unfold Scraper.remove_if_exists. rewrite lookup_insert_eq.
  destruct temp_path; [done|]. cbn [truthy andb].
  rewrite bool_decide_eq_true_2 by done.
  by rewrite delete_insert_eq, delete_id.
Qed.


(** Plain text has no blank line: a newline is never followed by a
    newline. *)
Theorem convert_to_plain_text_no_blank_line (content : bytes) (w : World)
    (text : pystr) (w' : World) (i : nat) :
  Scraper.convert_to_plain_text content w = (inr text, w') ->
  text !! i = Some 10 ->
  text !! S i <> Some 10.
Proof.
  unfold Scraper.convert_to_plain_text. intros Hrun Hi. inv_run.
  by destruct (sub_runs_single Regex.is_newline 10 false _ i 10 eq_refl Hi
                 eq_refl) as (_ & ? & _).
Qed.

End ScraperFacts.

Lemma convert_to_markdown_cleans_up_witness :
  (Scraper.convert_to_markdown (H0:=DemoLibs.libs) [] (Demo.world [])).1
  = inl (CollabError (py "empty document"))
  /\ files (Scraper.convert_to_markdown (H0:=DemoLibs.libs) [] (Demo.world [])).2
     = ∅.
Proof.
  apply (convert_to_markdown_cleans_up (H0:=DemoLibs.libs) [] (Demo.world [])).
  - vm_compute. discriminate.
  - reflexivity.
Defined.

Lemma convert_to_plain_text_no_blank_line_witness :
  [97; 10; 98] !! 2%nat <> Some 10.
Proof.
  apply (convert_to_plain_text_no_blank_line (H0:=DemoLibs.libs)
           (Echo.page [97; 10; 10; 98]) (Demo.world []) [97; 10; 98]
           (Scraper.convert_to_plain_text (H0:=DemoLibs.libs)
              (Echo.page [97; 10; 10; 98]) (Demo.world [])).2 1).
  - vm_compute. reflexivity.
  - reflexivity.
Defined.


(** ** How many requests a run sends *)

Section RequestCount.
Context `{Collab}.









End RequestCount.


(** ** The pipeline end to end *)

Lemma elem_of_concat {A} (x : A) (ls : list (list A)) :
  x ∈ concat ls -> exists l, x ∈ l /\ l ∈ ls.
Proof.
  induction ls as [|l ls IH]; cbn; [by intros ?%elem_of_nil|].
  intros [Hx|Hx]%elem_of_app.
  - exists l. split; [done|by left].
  - destruct (IH Hx) as (l' & ? & ?). exists l'. split; [done|by right].
Qed.

(** With [combined] set, every record that the pipeline returns is for a
    URL that the search of one of the queries returned. *)
Theorem pipeline_records_come_from_search `{Collab} (provider : pystr)
    (queries : list pystr) (k : Z) (w : World)
    (out : list ExtractionRecord) (w' : World) :
  auto_search_and_extract provider queries k true w = (inr out, w') ->
  Forall (fun r =>
            exists q found u,
              q ∈ queries
              /\ outcome_of (search provider q k) (inr found)
              /\ u ∈ found
              /\ url r = VStr u) out.
Proof.
  unfold auto_search_and_extract. intros Hrun.
  apply bind_inr_inv in Hrun as (found & w1 & Hsearch & Hrun).
  apply bind_inr_inv in Hrun as (extracted & w2 & Hbulk & Hrun).
  apply ret_inv in Hrun as [<- _].
  destruct (bulk_search_records provider queries k true w)
    as (records & w1' & Hsearch' & Hall).
  rewrite Hsearch in Hsearch'. simplify_eq.
  apply bulk_extraction_records in Hbulk as [_ Hex].
  apply Forall_forall. intros r Hr. rewrite sorted_desc_perm in Hr.
  rewrite Forall_forall in Hex. destruct (Hex r Hr) as (v & Hv & w3 & w4 & Ho).
  apply fetch_site_from_url_Some in Ho as (body & text & _ & _ & Hurl & _).
  apply list_elem_of_fmap in Hv as (u & -> & Hu).
  rewrite foldl_extend_urls in Hu. cbn in Hu.
  apply elem_of_concat in Hu as (l & Hul & Hl).
  apply list_elem_of_fmap in Hl as (rec & -> & Hrec).
  apply list_elem_of_lookup_1 in Hrec as [i Hi].
  destruct (Forall2_lookup_r _ _ _ _ _ Hall Hi) as (q & Hq & _ & Hout).
  apply search_with_error_handling_record in Hout as [_ Hout].
  exists q, (urls rec), u. split; [by eapply list_elem_of_lookup_2|].
  destruct (error rec).
  - destruct Hout as [Hnil _]. rewrite Hnil in Hul. by apply elem_of_nil in Hul.
  - done.
Qed.

Lemma pipeline_records_come_from_search_witness :
  Forall (fun r =>
            exists q found u,
              q ∈ [py "x"]
              /\ outcome_of (search (H:=Demo.collab) (py "google") q 1)
                   (inr found)
              /\ u ∈ found
              /\ url r = VStr u)
    [mkExtractionRecord (VStr (py "http://a.test/")) (py "aaaa")].
Proof.
  apply (pipeline_records_come_from_search (py "google") [py "x"] 1
           (Demo.world []) _
           (auto_search_and_extract (py "google") [py "x"] 1 true (Demo.world [])).2).
  vm_compute. reflexivity.
Defined.
